(** * Object-detection web service ([app.py]): streaming pipeline and endpoints

    A shallow embedding of the Flask application [app.py]:

    - [generate_video_frames], the Python generator that owns a
      [cv2.VideoCapture], as a resumable state machine ([gen_state]) with the
      two operations a consumer has on a generator, [gen_next] and
      [gen_close];
    - the endpoints [video_feed], [stream_video] and [predict] as functions
      from a request to a response or a raised exception.

    External collaborators (OpenCV, the YOLO model, Werkzeug's
    [secure_filename], Python's [float] and [int] parsers, the file system,
    the clock) are Section variables: every theorem holds for all of them. *)

From Stdlib Require Import List String Ascii Bool Arith ZArith Lia DecimalString.
From Stdlib Require Import PrimFloat.
From Stdlib Require DecimalPos DecimalZ.
From Stdlib Require Uint63.
Import ListNotations.
Local Open Scope string_scope.
Local Open Scope list_scope.

Set Implicit Arguments.

(** ** Python values shared by the whole file *)

(** Byte strings ([bytes]) and text are both [string] here: a list of 8-bit
    characters. *)
Definition bytes := string.

(** The exceptions that can leave the functions of [app.py]. *)
Inductive exn : Type :=
| RuntimeError (msg : string)   (* raise RuntimeError(...) at line 28 *)
| ValueError (arg : string)     (* float(s) / int(s) on a malformed string *)
| IndexError                    (* results[0] on an empty list *)
| LibraryError (what : string). (* anything raised inside cv2 / ultralytics / PIL *)

(** A computation that returns or raises. *)
Inductive result (A : Type) : Type :=
| Ok (a : A)
| Raise (e : exn).
Arguments Ok {A} a.
Arguments Raise {A} e.

Definition bind {A B} (r : result A) (k : A -> result B) : result B :=
  match r with
  | Ok a => k a
  | Raise e => Raise e
  end.

Notation "x <- c ;; k" := (bind c (fun x => k))
  (at level 61, c at next level, right associativity).

Definition CR : ascii := "013"%char.
Definition LF : ascii := "010"%char.
Definition CRLF : string := String CR (String LF EmptyString).

(** The Python float literals [0.25] and [0.45] as IEEE doubles. *)
Definition default_conf : float := 0.25%float.
Definition default_iou : float := 0x1.ccccccccccccdp-2%float.

(** ** Strings: the parts of [str] and of POSIX [os.path] the code uses *)

Definition slash : ascii := "/"%char.
Definition dot : ascii := "."%char.
Definition backslash : ascii := "\"%char.

(** [s.rfind(c)]: index of the last occurrence, [None] for Python's [-1]. *)
Fixpoint rfind (c : ascii) (s : string) : option nat :=
  match s with
  | EmptyString => None
  | String a rest =>
    match rfind c rest with
    | Some i => Some (S i)
    | None => if Ascii.eqb a c then Some 0 else None
    end
  end.

(** [s[n:]] and [s[:n]]. *)
Fixpoint drop (n : nat) (s : string) : string :=
  match n, s with
  | O, _ => s
  | S _, EmptyString => EmptyString
  | S n', String _ rest => drop n' rest
  end.

Fixpoint take (n : nat) (s : string) : string :=
  match n, s with
  | O, _ => EmptyString
  | S _, EmptyString => EmptyString
  | S n', String a rest => String a (take n' rest)
  end.

Definition startswith (c : ascii) (s : string) : bool :=
  match s with
  | String a _ => Ascii.eqb a c
  | EmptyString => false
  end.

Fixpoint endswith (c : ascii) (s : string) : bool :=
  match s with
  | EmptyString => false
  | String a EmptyString => Ascii.eqb a c
  | String _ rest => endswith c rest
  end.

Fixpoint contains (c : ascii) (s : string) : bool :=
  match s with
  | EmptyString => false
  | String a rest => Ascii.eqb a c || contains c rest
  end.

Fixpoint all_dots (s : string) : bool :=
  match s with
  | EmptyString => true
  | String a rest => Ascii.eqb a dot && all_dots rest
  end.

(** [os.path.basename(p)]: [i = p.rfind('/') + 1; return p[i:]]. *)
Definition basename (p : string) : string :=
  match rfind slash p with
  | None => p
  | Some i => drop (S i) p
  end.

(** [os.path.join(a, b)]. *)
Definition path_join (a b : string) : string :=
  if startswith slash b then b
  else if (a =? EmptyString)%string || endswith slash a then (a ++ b)%string
  else (a ++ "/" ++ b)%string.

(** [os.path.splitext(p)]: split at the last dot of the last component,
    unless that component consists of leading dots only up to it. *)
Definition splitext (p : string) : string * string :=
  let filenameIndex := match rfind slash p with None => 0 | Some i => S i end in
  match rfind dot p with
  | None => (p, EmptyString)
  | Some dotIndex =>
    if Nat.leb filenameIndex dotIndex
       && negb (all_dots (take (dotIndex - filenameIndex) (drop filenameIndex p)))
    then (take dotIndex p, drop dotIndex p)
    else (p, EmptyString)
  end.

(** [s.lower()] on ASCII text. *)
Definition lower_ascii (c : ascii) : ascii :=
  let n := nat_of_ascii c in
  if Nat.leb 65 n && Nat.leb n 90 then ascii_of_nat (n + 32) else c.

Fixpoint lower (s : string) : string :=
  match s with
  | EmptyString => EmptyString
  | String a rest => String (lower_ascii a) (lower rest)
  end.

(** [s.replace(a, b)] for single characters. *)
Fixpoint replace_char (a b : ascii) (s : string) : string :=
  match s with
  | EmptyString => EmptyString
  | String c rest => String (if Ascii.eqb c a then b else c) (replace_char a b rest)
  end.

(** [str(i)] for an [int]. *)
Definition str_of_int (i : Z) : string := NilZero.string_of_int (Z.to_int i).

(** [p] names an entry directly inside the folder [d]. *)
Definition directly_in (d p : string) : Prop :=
  exists name, contains slash name = false /\ p = (d ++ "/" ++ name)%string.

(** ** Flask request data *)

Record file_storage : Type := {
  filename : string;
  stream : bytes
}.

(** [request.args], [request.form] and [request.files] are multi-dicts:
    key/value pairs in arrival order, a key possibly repeated. *)
Record request : Type := {
  args : list (string * string);
  form : list (string * string);
  files : list (string * file_storage)
}.

(** [d.get(key)]: the first value under [key], else [None]. *)
Fixpoint multidict_get {V} (key : string) (d : list (string * V)) : option V :=
  match d with
  | [] => None
  | (k, v) :: rest => if (k =? key)%string then Some v else multidict_get key rest
  end.

(** [d.get(key, default)]: a string from the request, or the default. *)
Definition get_or {V D} (key : string) (d : list (string * V)) (default : D) : V + D :=
  match multidict_get key d with
  | Some v => inl v
  | None => inr default
  end.

(** [key in d]. *)
Definition has_key {V} (key : string) (d : list (string * V)) : bool :=
  existsb (fun kv => (fst kv =? key)%string) d.

(** [d.getlist(key)]. *)
Definition getlist {V} (key : string) (d : list (string * V)) : list V :=
  map snd (filter (fun kv => (fst kv =? key)%string) d).

Definition UPLOAD_FOLDER : string := "static/uploads".
Definition OUTPUT_FOLDER : string := "static/outputs".
Definition MJPEG_MIMETYPE : string := "multipart/x-mixed-replace; boundary=frame".
Definition VIDEO_EXTENSIONS : list string := [".mp4"; ".avi"; ".mov"; ".mkv"].

(** ** Batch results *)

(** One row of [r.boxes]: class (after [astype(int)]), confidence, corners. *)
Record box : Type := {
  box_cls : Z;
  box_conf : float;
  box_xyxy : float * float * float * float
}.

Record detection : Type := {
  class_id : Z;
  class_name : string;
  confidence : float;
  x1 : float; y1 : float; x2 : float; y2 : float
}.

(** The dict appended to [results_data]; a key the dict does not have is
    [None]. *)
Record result_record : Type := {
  upload_name : string;
  image_path : option string;
  video_path : option string;
  rec_conf : float;
  rec_iou : float;
  detections : list detection;
  is_video : bool
}.

(** What [predict] does to the outside world. *)
Inductive batch_event : Type :=
| EvSave (path : string) (content : bytes)        (* file.save(in_path) *)
| EvDetect (path : string) (conf iou : float)     (* model.predict(source=in_path, ...) *)
| EvSaveOutput (path : string).                   (* Image.fromarray(...).save(out_path) *)

Definition is_detect (e : batch_event) : bool :=
  match e with EvDetect _ _ _ => true | _ => false end.
Definition is_save (e : batch_event) : bool :=
  match e with EvSave _ _ => true | _ => false end.

(** The clock read by [unique_name] and the effects so far. *)
Record world : Type := {
  clock : nat;
  log : list batch_event
}.

Definition tick (w : world) : world :=
  {| clock := S (clock w); log := log w |}.
Definition emit (e : batch_event) (w : world) : world :=
  {| clock := clock w; log := log w ++ [e] |}.

(** ** Capture source (the slice of [cv2.VideoCapture] the generator uses) *)

Inductive source : Type :=
| Device (cam_index : Z)
| FilePath (video_path : string).

(** A capture object: whether it is open, the frames it will deliver
    ([cap_feed k] is the [k]-th frame, [None] when [read] reports
    [ok = False]) and the read position. A live device may deliver frames
    for ever. *)
Record capture (frame : Type) : Type := {
  cap_opened : bool;
  cap_feed : nat -> option frame;
  cap_pos : nat
}.

(** [cap.read()]: the next frame, advancing the position. *)
Definition cap_read {frame} (c : capture frame) : option frame * capture frame :=
  (cap_feed c (cap_pos c),
   {| cap_opened := cap_opened c; cap_feed := cap_feed c; cap_pos := S (cap_pos c) |}).

(** [cap.release()]: closes the source. *)
Definition cap_release {frame} (c : capture frame) : capture frame :=
  {| cap_opened := false; cap_feed := cap_feed c; cap_pos := cap_pos c |}.

(** A stored video of finitely many frames, as [cv2.VideoCapture] presents
    it: the frames in stored order, then [ok = False]. *)
Definition file_capture {frame} (frames : list frame) : capture frame :=
  {| cap_opened := true; cap_feed := nth_error frames; cap_pos := 0 |}.

(** A source that cannot be opened. *)
Definition failed_capture {frame} : capture frame :=
  {| cap_opened := false; cap_feed := fun _ => None; cap_pos := 0 |}.

(** What the outside world can observe of one pipeline instance. *)
Inductive event : Type :=
| EvOpen (src : source) (ok : bool)
| EvRead (ok : bool)
| EvPredict
| EvPlot
| EvEncode (ok : bool)
| EvRelease.

Definition trace := list event.

Definition is_open (e : event) : bool :=
  match e with EvOpen _ _ => true | _ => false end.
Definition is_release (e : event) : bool :=
  match e with EvRelease => true | _ => false end.
Definition is_read (e : event) : bool :=
  match e with EvRead _ => true | _ => false end.
Definition is_encoded (e : event) : bool :=
  match e with EvEncode true => true | _ => false end.

(** How many entries of a log satisfy [p]. *)
Definition count {E : Type} (p : E -> bool) (tr : list E) : nat :=
  List.length (filter p tr).

(** The multipart part yielded at lines 41-42. *)
Definition frame_header : bytes :=
  ("--frame" ++ CRLF ++ "Content-Type: image/jpeg" ++ CRLF ++ CRLF)%string.

Definition frame_chunk (frame_bytes : bytes) : bytes :=
  (frame_header ++ frame_bytes ++ CRLF)%string.

(** The closing delimiter a finished multipart body would carry. *)
Definition end_marker : bytes := "--frame--".

Inductive iter_exit : Type :=
| IterBreak                      (* line 33 *)
| IterContinue                   (* line 39 *)
| IterYield (chunk : bytes)      (* line 41 *)
| IterRaise (e : exn).           (* an exception from lines 34-37 *)

Inductive next_outcome : Type :=
| Yielded (chunk : bytes)
| StopIteration
| Raised (e : exn).

(** What a consumer can do with the generator object. *)
Inductive action : Type :=
| Next
| Close.

(** How a response body ends. *)
Inductive body_end : Type :=
| Exhausted                 (* the generator returned *)
| Failed (e : exn)          (* the generator raised *)
| Disconnected.             (* the client went away, the server closed the generator *)

(** The generator object made by calling [generate_video_frames]. *)
Inductive gen_state (frame : Type) : Type :=
| GenCreated (video_source : source) (conf iou : float)
    (* generator object made, body not started *)
| GenSuspended (cap : capture frame) (conf iou : float)
    (* suspended at the [yield] of line 41, inside [try] *)
| GenFinished.
    (* body left: returned, raised or closed *)
Arguments GenCreated {frame} video_source conf iou.
Arguments GenSuspended {frame} cap conf iou.
Arguments GenFinished {frame}.

(** ** A concrete world

    One instance of every external collaborator, small enough to run the
    model on: frames, detection results and images are numbers, so that a
    particular frame can be made to fail at a particular stage. *)

Module Demo.

Definition digit_of (c : ascii) : option Z :=
  let n := nat_of_ascii c in
  if Nat.leb 48 n && Nat.leb n 57 then Some (Z.of_nat (n - 48)) else None.

Fixpoint parse_digits (s : string) (acc : Z) : option Z :=
  match s with
  | EmptyString => Some acc
  | String c rest =>
    match digit_of c with
    | Some d => parse_digits rest (10 * acc + d)
    | None => None
    end
  end.

(** [int(s)] on unsigned decimal numerals. *)
Definition int_of_string (s : string) : option Z :=
  match s with
  | EmptyString => None
  | _ => parse_digits s 0
  end.

Definition float_of_Z (z : Z) : float := PrimFloat.of_uint63 (Uint63.of_Z z).

(** [float(s)] on unsigned decimal numerals with an optional fraction
    ([12], [0.5], [.5], [5.]); every other string is a [ValueError] here. *)
Definition float_of_string (s : string) : option float :=
  match rfind dot s with
  | None => option_map float_of_Z (int_of_string s)
  | Some i =>
    let whole := take i s in
    let frac := drop (S i) s in
    if (String.length whole + String.length frac =? 0)%nat then None
    else
      match parse_digits whole 0, parse_digits frac 0 with
      | Some a, Some b =>
        let scale := (10 ^ Z.of_nat (String.length frac))%Z in
        Some (PrimFloat.div (float_of_Z (a * scale + b)) (float_of_Z scale))
      | _, _ => None
      end
  end.

Definition is_space (c : ascii) : bool :=
  let n := nat_of_ascii c in
  (n =? 32)%nat || (Nat.leb 9 n && Nat.leb n 13).

Definition is_safe_char (c : ascii) : bool :=
  let n := nat_of_ascii c in
  (Nat.leb 48 n && Nat.leb n 57) || (Nat.leb 65 n && Nat.leb n 90)
  || (Nat.leb 97 n && Nat.leb n 122)
  || (n =? 95)%nat || (n =? 46)%nat || (n =? 45)%nat.

Definition is_dot_or_underscore (c : ascii) : bool :=
  let n := nat_of_ascii c in (n =? 95)%nat || (n =? 46)%nat.

(** ["_".join(s.split())]: runs of white space become one underscore,
    leading and trailing white space disappears. *)
Fixpoint join_words (s : string) (pending started : bool) : string :=
  match s with
  | EmptyString => EmptyString
  | String c rest =>
    if is_space c then join_words rest started started
    else
      let tail := String c (join_words rest false true) in
      if pending then String "_"%char tail else tail
  end.

Fixpoint filter_chars (p : ascii -> bool) (s : string) : string :=
  match s with
  | EmptyString => EmptyString
  | String c rest =>
    if p c then String c (filter_chars p rest) else filter_chars p rest
  end.

Fixpoint lstrip (p : ascii -> bool) (s : string) : string :=
  match s with
  | EmptyString => EmptyString
  | String c rest => if p c then lstrip p rest else s
  end.

Fixpoint rstrip (p : ascii -> bool) (s : string) : string :=
  match s with
  | EmptyString => EmptyString
  | String c rest =>
    match rstrip p rest with
    | EmptyString => if p c then EmptyString else String c EmptyString
    | kept => String c kept
    end
  end.

(** Werkzeug's [secure_filename] on ASCII input under POSIX: separators to
    spaces, words joined by underscores, everything outside
    [A-Za-z0-9_.-] dropped, dots and underscores stripped at both ends. *)
Definition secure_filename (s : string) : string :=
  let spaced := replace_char slash " "%char s in
  let joined := join_words spaced false false in
  let kept := filter_chars is_safe_char joined in
  rstrip is_dot_or_underscore (lstrip is_dot_or_underscore kept).

Definition clip_path : string := "static/uploads/clip.mp4".

(** The file system holds one uploaded clip. *)
Definition isfile (p : string) : bool := (p =? clip_path)%string.

(** Frames are numbers. The stored clip has the frames 1, 7, 3; camera 0
    delivers 0, 1, 2, ... for ever; camera 1 is stored footage whose second
    frame cannot be annotated; nothing else opens. *)
Definition VideoCapture (video_source : source) : capture nat :=
  match video_source with
  | FilePath p =>
    if (p =? clip_path)%string then file_capture [1; 7; 3]
    else if (p =? "static/uploads/ten.mp4")%string
         then file_capture [10; 11; 12; 14; 15; 16; 17; 18; 19; 20]
         else failed_capture
  | Device 0 =>
    {| cap_opened := true; cap_feed := fun k => Some k; cap_pos := 0 |}
  | Device 1 => file_capture [1; 13; 3]
  | Device _ => failed_capture
  end.

(** The detector fails on frame 99 and otherwise returns one result. *)
Definition model_predict (f : nat) (conf iou : float) : result (list nat) :=
  if (f =? 99)%nat then Raise (LibraryError "predict") else Ok [f].

(** Annotation fails on result 13. *)
Definition plot (r : nat) : result nat :=
  if (r =? 13)%nat then Raise (LibraryError "plot") else Ok r.

(** Image 7 cannot be encoded; any other image [n] encodes to one byte. *)
Definition imencode (im : nat) : result (bool * bytes) :=
  if (im =? 7)%nat then Ok (false, EmptyString)
  else Ok (true, String (ascii_of_nat im) EmptyString).

Definition now (k : nat) : string :=
  ("20240101_120000_00000" ++ String (ascii_of_nat (48 + k)) EmptyString)%string.

(** Detection on a stored upload: fails on the content [corrupt]. *)
Definition model_predict_file (path : string) (content : bytes) (conf iou : float)
  : result (list nat) :=
  if (content =? "corrupt")%string then Raise (LibraryError "predict")
  else Ok [String.length content].

(** Saving an annotated image: the format is chosen from the extension of
    the path, and an extension the imaging library cannot write is a
    [ValueError]; nothing is written then. *)
Definition image_save (im : nat) (path : string) : result unit :=
  if existsb (String.eqb (lower (snd (splitext path))))
       [".jpg"; ".jpeg"; ".png"; ".bmp"; ".gif"]
  then Ok tt
  else Raise (ValueError ("unknown file extension: " ++ snd (splitext path))%string).

Definition boxes (r : nat) : option (list box) :=
  Some [ {| box_cls := 0; box_conf := 0.5%float;
            box_xyxy := (1%float, 2%float, 3%float, 4%float) |} ].

Definition CLASS_NAMES (i : Z) : option string :=
  if (i =? 0)%Z then Some "person" else None.

End Demo.

Section App.

Set Default Proof Using "Type".

(** Raw frames, YOLO result objects and annotated images are opaque. *)
Variables frame yolo_result image : Type.

(** [cv2.VideoCapture(video_source)]: the constructor always returns an
    object; [isOpened()] tells whether the source could be opened. *)
Variable VideoCapture : source -> capture frame.

(** [model.predict(source=frame, conf=conf, iou=iou, verbose=False)]. *)
Variable model_predict : frame -> float -> float -> result (list yolo_result).
(** [r.plot()]. *)
Variable plot : yolo_result -> result image.
(** [cv2.imencode('.jpg', annotated)]: a status flag and a buffer. *)
Variable imencode : image -> result (bool * bytes).

(** *** One pass through the body of [while True] (lines 31-42) *)

(** Lines 34-40 on one frame: what the frame becomes. *)
Definition process_frame (frame_bgr : frame) (conf iou : float)
  : iter_exit * trace :=
  match model_predict frame_bgr conf iou with
  | Raise e => (IterRaise e, [EvPredict])
  | Ok results =>
    match results with
    | [] => (IterRaise IndexError, [EvPredict])
    | r :: _ =>
      match plot r with
      | Raise e => (IterRaise e, [EvPredict; EvPlot])
      | Ok annotated =>
        match imencode annotated with
        | Raise e => (IterRaise e, [EvPredict; EvPlot])
        | Ok (ok, buffer) =>
          if ok
          then (IterYield (frame_chunk buffer), [EvPredict; EvPlot; EvEncode true])
          else (IterContinue, [EvPredict; EvPlot; EvEncode false])
        end
      end
    end
  end.

Definition iteration (cap : capture frame) (conf iou : float)
  : iter_exit * capture frame * trace :=
  let (r, cap') := cap_read cap in
  match r with
  | None => (IterBreak, cap', [EvRead false])
  | Some frame_bgr =>
    let (x, evs) := process_frame frame_bgr conf iou in
    (x, cap', EvRead true :: evs)
  end.

(** *** The generator object *)

(** The [while True] loop inside [try ... finally]. The loop leaves the
    [try] block by [break] or by an exception, and then [finally] releases
    the capture; at a [yield] control is still inside [try]. [fuel] bounds
    the number of passes of one resumption. *)
Fixpoint frame_loop (fuel : nat) (cap : capture frame) (conf iou : float)
  : option (next_outcome * gen_state frame * trace) :=
  match fuel with
  | O => None
  | S fuel' =>
    match iteration cap conf iou with
    | (IterBreak, _, evs) =>
        Some (StopIteration, GenFinished, evs ++ [EvRelease])
    | (IterRaise e, _, evs) =>
        Some (Raised e, GenFinished, evs ++ [EvRelease])
    | (IterYield chunk, cap', evs) =>
        Some (Yielded chunk, GenSuspended cap' conf iou, evs)
    | (IterContinue, cap', evs) =>
        match frame_loop fuel' cap' conf iou with
        | None => None
        | Some (o, g, evs') => Some (o, g, evs ++ evs')
        end
    end
  end.

(** [str(video_source)] inside the f-string of line 28. *)
Definition str_of_source (video_source : source) : string :=
  match video_source with
  | Device i => str_of_int i
  | FilePath p => p
  end.

(** [next(g)]: runs the body up to the next [yield], [return] or exception.
    The first call executes lines 26-28 before entering the loop. *)
Definition gen_next (fuel : nat) (g : gen_state frame)
  : option (next_outcome * gen_state frame * trace) :=
  match g with
  | GenCreated video_source conf iou =>
    let cap := VideoCapture video_source in
    if negb (cap_opened cap)
    then Some (Raised (RuntimeError
                 ("Could not open video: " ++ str_of_source video_source)%string),
               GenFinished, [EvOpen video_source false])
    else
      match frame_loop fuel cap conf iou with
      | None => None
      | Some (o, g', evs) => Some (o, g', EvOpen video_source true :: evs)
      end
  | GenSuspended cap conf iou => frame_loop fuel cap conf iou
  | GenFinished => Some (StopIteration, GenFinished, [])
  end.

(** [g.close()]: on a generator suspended at the [yield], [GeneratorExit] is
    raised there, so [finally] runs; a generator that never started, or that
    has finished, runs no code. *)
Definition gen_close (g : gen_state frame) : gen_state frame * trace :=
  match g with
  | GenCreated _ _ _ => (GenFinished, [])
  | GenSuspended _ _ _ => (GenFinished, [EvRelease])
  | GenFinished => (GenFinished, [])
  end.

(** *** Consumers *)

(** An arbitrary consumer: any sequence of [next] and [close] calls. The
    result is the final generator state, everything that happened and the
    outcome of every [next]. *)
Fixpoint run_actions (fuel : nat) (acts : list action) (g : gen_state frame)
  : option (gen_state frame * trace * list next_outcome) :=
  match acts with
  | [] => Some (g, [], [])
  | Next :: rest =>
    match gen_next fuel g with
    | None => None
    | Some (o, g', evs) =>
      match run_actions fuel rest g' with
      | None => None
      | Some (g'', evs', outs) => Some (g'', evs ++ evs', o :: outs)
      end
    end
  | Close :: rest =>
    let (g', evs) := gen_close g in
    match run_actions fuel rest g' with
    | None => None
    | Some (g'', evs', outs) => Some (g'', evs ++ evs', outs)
    end
  end.

(** The WSGI server writing the response body: it pulls one chunk at a time
    and writes it; the client takes [pulls] chunks and then disconnects, at
    which point the server calls [close()] on the generator. *)
Fixpoint serve (fuel pulls : nat) (g : gen_state frame)
  : option (list bytes * body_end * gen_state frame * trace) :=
  match pulls with
  | O => let (g', evs) := gen_close g in Some ([], Disconnected, g', evs)
  | S pulls' =>
    match gen_next fuel g with
    | None => None
    | Some (Yielded chunk, g', evs) =>
      match serve fuel pulls' g' with
      | None => None
      | Some (chunks, fin, g'', evs') => Some (chunk :: chunks, fin, g'', evs ++ evs')
      end
    | Some (StopIteration, g', evs) => Some ([], Exhausted, g', evs)
    | Some (Raised e, g', evs) => Some ([], Failed e, g', evs)
    end
  end.

Definition chunks_of (outs : list next_outcome) : list bytes :=
  flat_map (fun o => match o with Yielded c => [c] | _ => [] end) outs.

(** *** Bookkeeping used by the statements *)

(** The lifecycle invariant of one pipeline instance: how many times the
    capture has been opened and released, by generator state. *)
Definition balanced (g : gen_state frame) (tr : trace) : Prop :=
  match g with
  | GenCreated video_source _ _ =>
      cap_opened (VideoCapture video_source) = true
      /\ count is_open tr = 0 /\ count is_release tr = 0
  | GenSuspended _ _ _ =>
      count is_open tr = 1 /\ count is_release tr = 0
  | GenFinished =>
      count is_open tr <= 1 /\ count is_release tr = count is_open tr
  end.

(** Frame [f] passes detection and annotation, and [imencode] returns the
    status flag [ok] together with [buffer]. *)
Definition encode_status (f : frame) (conf iou : float) (ok : bool) (buffer : bytes)
  : Prop :=
  exists r rs annotated,
    model_predict f conf iou = Ok (r :: rs)
    /\ plot r = Ok annotated
    /\ imencode annotated = Ok (ok, buffer).

(** [chunk] is one well-formed part: the boundary line, the content type,
    an empty line, bytes that [imencode] returned with status [True], and a
    closing line break. *)
Definition mjpeg_part (chunk : bytes) : Prop :=
  exists annotated jpeg,
    imencode annotated = Ok (true, jpeg)
    /\ chunk = ("--frame" ++ CRLF ++ "Content-Type: image/jpeg" ++ CRLF ++ CRLF
                 ++ jpeg ++ CRLF)%string.

(** The ways a run can have ended the frame loop: the consumer closed the
    generator, the source ran dry, or an exception left the body. *)
Definition terminated (acts : list action) (outs : list next_outcome) : Prop :=
  In Close acts \/ In StopIteration outs \/ exists e, In (Raised e) outs.

(** ** Endpoints *)

(** Python's [float(s)] and [int(s)] on a string: [None] when they raise
    [ValueError]. *)
Variable float_of_string : string -> option float.
Variable int_of_string : string -> option Z.

(** Werkzeug's [secure_filename]. *)
Variable secure_filename : string -> string.

(** [os.path.isfile]. *)
Variable isfile : string -> bool.

(** [float(x)] where [x] came from [d.get(key, default)]: a float passes
    through, a string is parsed. *)
Definition py_float (x : string + float) : result float :=
  match x with
  | inr f => Ok f
  | inl s =>
    match float_of_string s with
    | Some f => Ok f
    | None => Raise (ValueError s)
    end
  end.

Definition py_int (x : string + Z) : result Z :=
  match x with
  | inr i => Ok i
  | inl s =>
    match int_of_string s with
    | Some i => Ok i
    | None => Raise (ValueError s)
    end
  end.

(** What a view function returns. *)
Inductive response : Type :=
| TextResponse (body : string) (status : Z)
    (* return "...", 400 *)
| StreamResponse (body : gen_state frame) (mimetype : string)
    (* Response(generator, mimetype=...), status 200 *)
| TemplateResponse (template : string) (results : list result_record).
    (* render_template('result.html', results=...), status 200 *)

(** The status line Flask sends: an exception that leaves the view function
    unhandled becomes 500 Internal Server Error. *)
Definition http_status (r : result response) : Z :=
  match r with
  | Ok (TextResponse _ status) => status
  | Ok (StreamResponse _ _) => 200
  | Ok (TemplateResponse _ _) => 200
  | Raise _ => 500
  end.

(** Delivery of a response to a client that takes [pulls] chunks: the
    multipart chunks written and the capture events caused. Only a
    [StreamResponse] has a generator to pull from. *)
Definition deliver (fuel pulls : nat) (r : result response)
  : option (list bytes * trace) :=
  match r with
  | Ok (StreamResponse g _) =>
    match serve fuel pulls g with
    | None => None
    | Some (chunks, _, _, evs) => Some (chunks, evs)
    end
  | _ => Some ([], [])
  end.

(** [/video_feed], lines 70-75. *)
Definition video_feed (req : request) : result response :=
  conf <- py_float (get_or "conf" (args req) default_conf) ;;
  iou <- py_float (get_or "iou" (args req) default_iou) ;;
  cam_index <- py_int (get_or "cam" (args req) 0%Z) ;;
  Ok (StreamResponse (GenCreated (Device cam_index) conf iou) MJPEG_MIMETYPE).

(** The path [stream_video] resolves its parameter to, lines 86-87. *)
Definition resolve_video_path (video_file : string) : string :=
  let safe_video_file := secure_filename (basename video_file) in
  path_join UPLOAD_FOLDER safe_video_file.

(** [/stream_video], lines 78-93. [not video_file] holds for a missing
    parameter and for an empty one. *)
Definition stream_video (req : request) : result response :=
  let video_file := multidict_get "video_file" (args req) in
  conf <- py_float (get_or "conf" (args req) default_conf) ;;
  iou <- py_float (get_or "iou" (args req) default_iou) ;;
  match video_file with
  | None | Some EmptyString => Ok (TextResponse "Missing video file path" 400)
  | Some video_file =>
    let video_path := resolve_video_path video_file in
    if negb (isfile video_path)
    then Ok (TextResponse ("Video not found: " ++ video_path)%string 404)
    else Ok (StreamResponse (GenCreated (FilePath video_path) conf iou) MJPEG_MIMETYPE)
  end.

(** *** The batch endpoint *)

(** [datetime.datetime.now().strftime(...)] at the [k]-th reading of the
    clock. *)
Variable now : nat -> string.

(** [model.predict(source=in_path, ...)] on a stored upload. *)
Variable model_predict_file : string -> bytes -> float -> float -> result (list yolo_result).
(** [r.boxes]: [None], or the rows of the boxes object. *)
Variable boxes : yolo_result -> option (list box).
(** [CLASS_NAMES.get]. *)
Variable CLASS_NAMES : Z -> option string.
(** [Image.fromarray(plotted_bgr[:, :, ::-1]).save(out_path)], line 124, on
    the plotted image: it raises when the image cannot be written, for
    instance when the extension of [out_path] names no format. *)
Variable image_save : image -> string -> result unit.

(** [unique_name(prefix, orig_filename)], lines 19-22. *)
Definition unique_name (prefix orig_filename : string) (w : world) : string * world :=
  let ts := now (clock w) in
  let ext := snd (splitext orig_filename) in
  ((prefix ++ "_" ++ ts ++ (if (ext =? EmptyString)%string then ".jpg" else ext))%string,
   tick w).

(** [ext in ['.mp4', '.avi', '.mov', '.mkv']] for the lowercased extension,
    lines 114-115. *)
Definition classify_video (filename : string) : bool :=
  let ext := lower (snd (splitext filename)) in
  existsb (String.eqb ext) VIDEO_EXTENSIONS.

(** Lines 126-139. *)
Definition make_detection (b : box) : detection :=
  let '(bx1, by1, bx2, by2) := box_xyxy b in
  {| class_id := box_cls b;
     class_name := match CLASS_NAMES (box_cls b) with
                   | Some name => name
                   | None => str_of_int (box_cls b)
                   end;
     confidence := box_conf b;
     x1 := bx1; y1 := by1; x2 := bx2; y2 := by2 |}.

Definition detections_of (r : yolo_result) : list detection :=
  match boxes r with
  | None => []
  | Some rows => map make_detection rows
  end.

(** The body of [for file in files], lines 108-156: [None] is [continue].
    Of the image written by line 124 only the path is logged, and only when
    the save succeeds; a save that raises ends the request like any other
    exception. *)
Definition predict_file (file : file_storage) (conf iou : float) (w : world)
  : result (option result_record) * world :=
  if (filename file =? EmptyString)%string then (Ok None, w)
  else
    let filename := secure_filename (filename file) in
    let (in_name, w) := unique_name "in" filename w in
    let in_path := path_join UPLOAD_FOLDER in_name in
    let w := emit (EvSave in_path (stream file)) w in
    let is_video := classify_video filename in
    if negb is_video then
      let w := emit (EvDetect in_path conf iou) w in
      match model_predict_file in_path (stream file) conf iou with
      | Raise e => (Raise e, w)
      | Ok [] => (Raise IndexError, w)
      | Ok (r :: _) =>
        match plot r with
        | Raise e => (Raise e, w)
        | Ok plotted_bgr =>
          let (out_name, w) := unique_name "out" filename w in
          let out_path := path_join OUTPUT_FOLDER out_name in
          match image_save plotted_bgr out_path with
          | Raise e => (Raise e, w)
          | Ok _ =>
            let w := emit (EvSaveOutput out_path) w in
            (Ok (Some {| upload_name := filename;
                         image_path := Some ("/" ++ replace_char backslash slash out_path)%string;
                         video_path := None;
                         rec_conf := conf;
                         rec_iou := iou;
                         detections := detections_of r;
                         is_video := false |}), w)
          end
        end
      end
    else
      (Ok (Some {| upload_name := filename;
                   image_path := None;
                   video_path := Some ("/" ++ replace_char backslash slash in_path)%string;
                   rec_conf := conf;
                   rec_iou := iou;
                   detections := [];
                   is_video := true |}), w).

(** The [for] loop of line 107, appending to [results_data]. *)
Fixpoint predict_loop (fs : list file_storage) (conf iou : float)
    (results_data : list result_record) (w : world)
  : result (list result_record) * world :=
  match fs with
  | [] => (Ok results_data, w)
  | file :: rest =>
    match predict_file file conf iou w with
    | (Raise e, w') => (Raise e, w')
    | (Ok None, w') => predict_loop rest conf iou results_data w'
    | (Ok (Some rec), w') => predict_loop rest conf iou (results_data ++ [rec]) w'
    end
  end.

(** [/predict], lines 96-157. *)
Definition predict (req : request) (w : world) : result response * world :=
  if negb (has_key "file" (files req))
  then (Ok (TextResponse "No file uploaded" 400), w)
  else
    let fs := getlist "file" (files req) in
    if match fs with [] => true | _ => false end
       || forallb (fun f => (filename f =? EmptyString)%string) fs
    then (Ok (TextResponse "No selected files" 400), w)
    else
      match py_float (get_or "conf" (form req) default_conf) with
      | Raise e => (Raise e, w)
      | Ok conf =>
        match py_float (get_or "iou" (form req) default_iou) with
        | Raise e => (Raise e, w)
        | Ok iou =>
          match predict_loop fs conf iou [] w with
          | (Raise e, w') => (Raise e, w')
          | (Ok results_data, w') =>
              (Ok (TemplateResponse "result.html" results_data), w')
          end
        end
      end.

(** *** The remaining view functions *)

(** [/webcam], lines 64-67: the template rendered and its context, the two
    thresholds the page passes on to the feed. *)
Definition webcam_page (req : request) : result (string * float * float) :=
  conf <- py_float (get_or "conf" (args req) default_conf) ;;
  iou <- py_float (get_or "iou" (args req) default_iou) ;;
  Ok ("webcam.html", conf, iou).

(** The body a stored video should produce, read off the three library
    calls frame by frame: a frame that is detected and annotated and that
    [imencode] encodes with status [True] contributes the boundary line,
    the content type, an empty line, its bytes and a line break; a frame
    whose status is [False] contributes nothing; the first call that raises
    (or an empty result list) ends the body with that exception. *)
Fixpoint play (frames : list frame) (conf iou : float) : list bytes * body_end :=
  match frames with
  | [] => ([], Exhausted)
  | f :: rest =>
    match model_predict f conf iou with
    | Raise e => ([], Failed e)
    | Ok [] => ([], Failed IndexError)
    | Ok (r :: _) =>
      match plot r with
      | Raise e => ([], Failed e)
      | Ok annotated =>
        match imencode annotated with
        | Raise e => ([], Failed e)
        | Ok (false, _) => play rest conf iou
        | Ok (true, jpeg) =>
          let (chunks, fin) := play rest conf iou in
          (("--frame" ++ CRLF ++ "Content-Type: image/jpeg" ++ CRLF ++ CRLF
            ++ jpeg ++ CRLF)%string :: chunks, fin)
        end
      end
    end
  end.

(** The paths a batch request wrote to: stored uploads and annotated
    outputs. *)
Definition written (evs : list batch_event) : list string :=
  flat_map (fun e => match e with
                     | EvSave p _ => [p]
                     | EvSaveOutput p => [p]
                     | EvDetect _ _ _ => []
                     end) evs.

(** The reference a record carries, whichever kind it is. *)
Definition reference (rec : result_record) : option string :=
  if is_video rec then video_path rec else image_path rec.

(** *** Vocabulary of the endpoint statements *)

(** What can go wrong with an upload that is not a video, between the
    saving of its input and its record: the detector raises or returns an
    empty list of results (line 120 indexes it), the annotation raises, or
    the annotated image cannot be written to [out_path]. *)
Definition upload_failure (in_path out_path : string) (content : bytes)
    (conf iou : float) (e : exn) : Prop :=
  model_predict_file in_path content conf iou = Raise e
  \/ (model_predict_file in_path content conf iou = Ok [] /\ e = IndexError)
  \/ (exists r rs,
        model_predict_file in_path content conf iou = Ok (r :: rs)
        /\ plot r = Raise e)
  \/ (exists r rs plotted,
        model_predict_file in_path content conf iou = Ok (r :: rs)
        /\ plot r = Ok plotted
        /\ image_save plotted out_path = Raise e).

(** A threshold parameter that is present but that [float] rejects. *)
Definition malformed (key : string) (d : list (string * string)) : Prop :=
  exists s, multidict_get key d = Some s /\ float_of_string s = None.

(** The value a threshold parameter stands for: the default when the
    parameter is absent, else what [float] makes of the string. *)
Definition threshold (key : string) (d : list (string * string)) (default v : float)
  : Prop :=
  match multidict_get key d with
  | None => v = default
  | Some s => float_of_string s = Some v
  end.

(** The uploads the batch loop does not skip. *)
Definition named (fs : list file_storage) : list file_storage :=
  filter (fun f => negb (filename f =? EmptyString)%string) fs.


(** ** Properties of the pipeline *)

(** Pipeline proofs do not depend on the collaborators of the endpoints. *)
Ltac pipeline_only :=
  clear float_of_string int_of_string secure_filename isfile now
        model_predict_file boxes CLASS_NAMES image_save.

Lemma count_app {E : Type} (p : E -> bool) (a b : list E) :
  count p (a ++ b) = count p a + count p b.
Proof. unfold count. now rewrite filter_app, length_app. Qed.

Lemma count_cons {E : Type} (p : E -> bool) (e : E) (a : list E) :
  count p (e :: a) = (if p e then 1 else 0) + count p a.
Proof. unfold count. simpl. now destruct (p e). Qed.

Lemma process_frame_events (f : frame) (conf iou : float) x evs :
  process_frame f conf iou = (x, evs) ->
  count is_open evs = 0 /\ count is_release evs = 0 /\ x <> IterBreak.
Proof.
  unfold process_frame.
  destruct (model_predict f conf iou) as [[|r rs]|e].
  - intros [= <- <-]. now cbn.
  - destruct (plot r) as [annotated|e].
    + destruct (imencode annotated) as [[[|] buffer]|e];
        intros [= <- <-]; now cbn.
    + intros [= <- <-]. now cbn.
  - intros [= <- <-]. now cbn.
Qed.

Lemma iteration_events (cap : capture frame) (conf iou : float) x cap' evs :
  iteration cap conf iou = (x, cap', evs) ->
  count is_open evs = 0 /\ count is_release evs = 0.
Proof.
  unfold iteration, cap_read.
  destruct (cap_feed cap (cap_pos cap)) as [f|].
  - destruct (process_frame f conf iou) as [y evs0] eqn:E.
    intros [= <- <- <-].
    apply process_frame_events in E as (Ho & Hr & _).
    now rewrite !count_cons, Ho, Hr.
  - intros [= <- <- <-]. now cbn.
Qed.

(** One resumption of the loop: it opens nothing; it either suspends at a
    [yield] without releasing, or leaves the [try] block and releases once. *)
Lemma frame_loop_events (fuel : nat) :
  forall (cap : capture frame) (conf iou : float) o g evs,
    frame_loop fuel cap conf iou = Some (o, g, evs) ->
    count is_open evs = 0 /\
    ((exists chunk cap', o = Yielded chunk /\ g = GenSuspended cap' conf iou
                         /\ count is_release evs = 0)
     \/ (g = GenFinished /\ count is_release evs = 1
         /\ (o = StopIteration \/ exists e, o = Raised e))).
Proof.
  induction fuel as [|fuel IH]; intros cap conf iou o g evs; simpl; [discriminate|].
  destruct (iteration cap conf iou) as [[x cap'] evs0] eqn:E.
  pose proof (iteration_events _ _ _ E) as (Ho & Hr).
  destruct x as [| |chunk|e].
  - intros [= <- <- <-]. rewrite !count_app, Ho, Hr. cbn. split; [reflexivity|].
    right. auto.
  - destruct (frame_loop fuel cap' conf iou) as [[[o1 g1] evs1]|] eqn:L; [|discriminate].
    intros [= <- <- <-].
    apply IH in L as (Ho1 & HL).
    rewrite !count_app, Ho, Hr, Ho1. split; [reflexivity|].
    destruct HL as [(c & cp & -> & -> & R)|(-> & R & Hout)].
    + left. exists c, cp. now rewrite R.
    + right. now rewrite R.
  - intros [= <- <- <-]. split; [assumption|]. left. now exists chunk, cap'.
  - intros [= <- <- <-]. rewrite !count_app, Ho, Hr. cbn. split; [reflexivity|].
    right. repeat split; trivial. right. now exists e.
Qed.

Lemma gen_next_balanced (fuel : nat) (g : gen_state frame) (pre : trace) o g' evs :
  balanced g pre ->
  gen_next fuel g = Some (o, g', evs) ->
  balanced g' (pre ++ evs).
Proof.
  intros B. destruct g as [src conf iou|cap conf iou|]; simpl.
  - destruct B as (Hop & Ho & Hr). rewrite Hop. simpl.
    destruct (frame_loop fuel (VideoCapture src) conf iou) as [[[o1 g1] evs1]|] eqn:L;
      [|discriminate].
    intros [= <- <- <-].
    apply frame_loop_events in L as (Ho1 & HL).
    destruct HL as [(c & cp & -> & -> & R)|(-> & R & _)]; simpl;
      rewrite !count_app, !count_cons, Ho, Hr, Ho1, R; cbn; lia.
  - destruct B as (Ho & Hr). intros L.
    apply frame_loop_events in L as (Ho1 & HL).
    destruct HL as [(c & cp & -> & -> & R)|(-> & R & _)]; simpl;
      rewrite !count_app, Ho, Hr, Ho1, R; cbn; lia.
  - intros [= <- <- <-]. now rewrite app_nil_r.
Qed.

Lemma gen_close_balanced (g : gen_state frame) (pre : trace) g' evs :
  balanced g pre ->
  gen_close g = (g', evs) ->
  balanced g' (pre ++ evs).
Proof.
  intros B. destruct g as [src conf iou|cap conf iou|]; simpl; intros [= <- <-]; simpl.
  - destruct B as (_ & Ho & Hr). rewrite app_nil_r. lia.
  - destruct B as (Ho & Hr). rewrite !count_app, Ho, Hr. cbn. lia.
  - now rewrite app_nil_r.
Qed.

Lemma run_actions_balanced (fuel : nat) (acts : list action) :
  forall (g : gen_state frame) (pre : trace) g' tr outs,
    balanced g pre ->
    run_actions fuel acts g = Some (g', tr, outs) ->
    balanced g' (pre ++ tr).
Proof.
  induction acts as [|a acts IH]; intros g pre g' tr outs B; simpl.
  - intros [= <- <- <-]. now rewrite app_nil_r.
  - destruct a.
    + destruct (gen_next fuel g) as [[[o g1] evs]|] eqn:N; [|discriminate].
      destruct (run_actions fuel acts g1) as [[[g2 evs'] outs']|] eqn:R; [|discriminate].
      intros [= <- <- <-]. rewrite app_assoc.
      eapply IH; [|exact R]. eapply gen_next_balanced; eassumption.
    + destruct (gen_close g) as [g1 evs] eqn:C.
      destruct (run_actions fuel acts g1) as [[[g2 evs'] outs']|] eqn:R; [|discriminate].
      intros [= <- <- <-]. rewrite app_assoc.
      eapply IH; [|exact R]. eapply gen_close_balanced; eassumption.
Qed.

(** A finished generator stays finished. *)
Lemma run_actions_finished (fuel : nat) (acts : list action) g tr outs :
  run_actions fuel acts GenFinished = Some (g, tr, outs) ->
  g = GenFinished /\ tr = [] /\ chunks_of outs = [].
Proof.
  revert g tr outs. induction acts as [|a acts IH]; intros g tr outs; simpl.
  - now intros [= <- <- <-].
  - destruct a; simpl;
      destruct (run_actions fuel acts GenFinished) as [[[g2 evs'] outs']|] eqn:R;
      try discriminate; intros [= <- <- <-];
      destruct (IH _ _ _ eq_refl) as (-> & -> & Hc); auto.
Qed.

Lemma gen_next_terminal (fuel : nat) (g : gen_state frame) o g' evs :
  gen_next fuel g = Some (o, g', evs) ->
  (o = StopIteration \/ exists e, o = Raised e) ->
  g' = GenFinished.
Proof.
  destruct g as [src conf iou|cap conf iou|]; simpl.
  - destruct (negb (cap_opened (VideoCapture src))).
    + now intros [= <- <- <-].
    + destruct (frame_loop fuel (VideoCapture src) conf iou) as [[[o1 g1] evs1]|] eqn:L;
        [|discriminate].
      intros [= <- <- <-] H.
      apply frame_loop_events in L as (_ & [(c & cp & -> & _)|(-> & _)]); trivial.
      destruct H as [H|[e H]]; discriminate.
  - intros L H.
    apply frame_loop_events in L as (_ & [(c & cp & -> & _)|(-> & _)]); trivial.
    destruct H as [H|[e H]]; discriminate.
  - now intros [= <- <- <-].
Qed.

Lemma run_actions_terminated (fuel : nat) (acts : list action) :
  forall g g' tr outs,
    run_actions fuel acts g = Some (g', tr, outs) ->
    terminated acts outs ->
    g' = GenFinished.
Proof.
  induction acts as [|a acts IH]; intros g g' tr outs; simpl.
  - intros [= <- <- <-] [[]|[[]|[e []]]].
  - destruct a.
    + destruct (gen_next fuel g) as [[[o g1] evs]|] eqn:N; [|discriminate].
      destruct (run_actions fuel acts g1) as [[[g2 evs'] outs']|] eqn:R; [|discriminate].
      intros [= <- <- <-] T.
      assert (D : (o = StopIteration \/ exists e, o = Raised e) \/ terminated acts outs').
      { destruct T as [[H|H]|[[H|H]|[e [H|H]]]];
          try discriminate; unfold terminated; eauto 6. }
      destruct D as [D|D].
      * rewrite (gen_next_terminal _ _ N D) in R.
        now apply run_actions_finished in R.
      * eapply IH; eassumption.
    + destruct (gen_close g) as [g1 evs] eqn:C.
      destruct (run_actions fuel acts g1) as [[[g2 evs'] outs']|] eqn:R; [|discriminate].
      intros [= <- <- <-] _.
      assert (g1 = GenFinished) as -> by (destruct g; simpl in C; congruence).
      now apply run_actions_finished in R.
Qed.

(** C1. Whenever the capture source of a streaming request opens, every run
    of the generator that ends the frame loop (end of stream, an exception
    raised while processing a frame, or the consumer closing the generator)
    has released the capture exactly once: one open, one release. While the
    generator is still suspended inside the loop nothing has been released,
    and the capture is never opened twice. *)
Theorem release_exactly_once :
  forall (fuel : nat) (acts : list action) (src : source) (conf iou : float)
         (g : gen_state frame) (tr : trace) (outs : list next_outcome),
    cap_opened (VideoCapture src) = true ->
    run_actions fuel acts (GenCreated src conf iou) = Some (g, tr, outs) ->
    (terminated acts outs -> count is_open tr = 1 ->
       g = GenFinished /\ count is_release tr = 1)
    /\ (g <> GenFinished -> count is_release tr = 0)
    /\ count is_release tr <= count is_open tr <= 1.
Proof.
  pipeline_only. intros fuel acts src conf iou g tr outs Hop R.
  assert (B : balanced g ([] ++ tr)).
  { eapply run_actions_balanced; [|exact R]. simpl. auto. }
  simpl in B. split; [|split].
  - intros T O1. assert (g = GenFinished) as -> by (eapply run_actions_terminated; eassumption).
    simpl in B. split; [reflexivity|lia].
  - intros NF. destruct g; simpl in B; [tauto|tauto|congruence].
  - destruct g; simpl in B; lia.
Qed.

(** *** Skipped frames and emitted parts *)

Lemma process_frame_status (f : frame) (conf iou : float) (ok : bool) buffer :
  encode_status f conf iou ok buffer ->
  process_frame f conf iou
  = if ok then (IterYield (frame_chunk buffer), [EvPredict; EvPlot; EvEncode true])
    else (IterContinue, [EvPredict; EvPlot; EvEncode false]).
Proof.
  intros (r & rs & annotated & Hp & Hl & He).
  unfold process_frame. now rewrite Hp, Hl, He.
Qed.

Lemma process_frame_encoded (f : frame) (conf iou : float) x evs :
  process_frame f conf iou = (x, evs) ->
  count is_encoded evs = match x with IterYield _ => 1 | _ => 0 end
  /\ forall chunk, x = IterYield chunk -> mjpeg_part chunk.
Proof.
  unfold process_frame.
  destruct (model_predict f conf iou) as [[|r rs]|e].
  - intros [= <- <-]. split; [reflexivity|discriminate].
  - destruct (plot r) as [annotated|e].
    + destruct (imencode annotated) as [[[|] buffer]|e] eqn:E;
        intros [= <- <-]; (split; [reflexivity|]); try discriminate.
      intros chunk [= <-]. now exists annotated, buffer.
    + intros [= <- <-]. split; [reflexivity|discriminate].
  - intros [= <- <-]. split; [reflexivity|discriminate].
Qed.

Lemma iteration_encoded (cap : capture frame) (conf iou : float) x cap' evs :
  iteration cap conf iou = (x, cap', evs) ->
  count is_encoded evs = match x with IterYield _ => 1 | _ => 0 end
  /\ forall chunk, x = IterYield chunk -> mjpeg_part chunk.
Proof.
  unfold iteration, cap_read.
  destruct (cap_feed cap (cap_pos cap)) as [f|].
  - destruct (process_frame f conf iou) as [y evs0] eqn:E.
    intros [= <- <- <-]. rewrite count_cons. simpl.
    now apply process_frame_encoded in E.
  - intros [= <- <- <-]. split; [reflexivity|discriminate].
Qed.

Lemma frame_loop_encoded (fuel : nat) :
  forall (cap : capture frame) (conf iou : float) o g evs,
    frame_loop fuel cap conf iou = Some (o, g, evs) ->
    count is_encoded evs = List.length (chunks_of [o])
    /\ forall chunk, o = Yielded chunk -> mjpeg_part chunk.
Proof.
  induction fuel as [|fuel IH]; intros cap conf iou o g evs; simpl; [discriminate|].
  destruct (iteration cap conf iou) as [[x cap'] evs0] eqn:E.
  apply iteration_encoded in E as (Hc & Hp).
  destruct x as [| |chunk|e].
  - intros [= <- <- <-]. rewrite count_app, Hc. split; [reflexivity|discriminate].
  - destruct (frame_loop fuel cap' conf iou) as [[[o1 g1] evs1]|] eqn:L; [|discriminate].
    intros [= <- <- <-]. apply IH in L as (Hc1 & Hp1).
    now rewrite count_app, Hc, Hc1.
  - intros [= <- <- <-]. split; [exact Hc|]. intros c [= <-]. now apply Hp.
  - intros [= <- <- <-]. rewrite count_app, Hc. split; [reflexivity|discriminate].
Qed.

Lemma gen_next_encoded (fuel : nat) (g : gen_state frame) o g' evs :
  gen_next fuel g = Some (o, g', evs) ->
  count is_encoded evs = List.length (chunks_of [o])
  /\ forall chunk, o = Yielded chunk -> mjpeg_part chunk.
Proof.
  destruct g as [src conf iou|cap conf iou|]; simpl.
  - destruct (negb (cap_opened (VideoCapture src))).
    + intros [= <- <- <-]. split; [reflexivity|discriminate].
    + destruct (frame_loop fuel (VideoCapture src) conf iou) as [[[o1 g1] evs1]|] eqn:L;
        [|discriminate].
      intros [= <- <- <-]. rewrite count_cons. simpl.
      now apply frame_loop_encoded in L.
  - apply frame_loop_encoded.
  - intros [= <- <- <-]. split; [reflexivity|discriminate].
Qed.

Lemma gen_close_encoded (g : gen_state frame) g' evs :
  gen_close g = (g', evs) -> count is_encoded evs = 0.
Proof. destruct g; simpl; now intros [= <- <-]. Qed.

Lemma run_actions_encoded (fuel : nat) (acts : list action) :
  forall (g g' : gen_state frame) tr outs,
    run_actions fuel acts g = Some (g', tr, outs) ->
    List.length (chunks_of outs) = count is_encoded tr.
Proof.
  induction acts as [|a acts IH]; intros g g' tr outs; simpl.
  - now intros [= <- <- <-].
  - destruct a.
    + destruct (gen_next fuel g) as [[[o g1] evs]|] eqn:N; [|discriminate].
      destruct (run_actions fuel acts g1) as [[[g2 evs'] outs']|] eqn:R; [|discriminate].
      intros [= <- <- <-].
      apply gen_next_encoded in N as (N & _). apply IH in R.
      rewrite count_app, N, <- R. unfold chunks_of. simpl.
      now rewrite length_app, app_nil_r.
    + destruct (gen_close g) as [g1 evs] eqn:C.
      destruct (run_actions fuel acts g1) as [[[g2 evs'] outs']|] eqn:R; [|discriminate].
      intros [= <- <- <-].
      apply gen_close_encoded in C. apply IH in R.
      now rewrite count_app, C.
Qed.


(** *** Stored video played to the end *)

Lemma serve_stored_frames (jpeg : frame -> bytes) (conf iou : float) (fuel : nat) :
  forall (rest : list frame) (cap : capture frame) (pulls : nat),
    (forall i, cap_feed cap (cap_pos cap + i) = nth_error rest i) ->
    (forall f, In f rest -> encode_status f conf iou true (jpeg f)) ->
    List.length rest < pulls ->
    exists tr,
      serve (S fuel) pulls (GenSuspended cap conf iou)
      = Some (map (fun f => frame_chunk (jpeg f)) rest, Exhausted, GenFinished, tr)
      /\ count is_release tr = 1
      /\ count is_open tr = 0
      /\ count is_read tr = S (List.length rest).
Proof.
  induction rest as [|f rest IH]; intros cap pulls Hfeed Henc Hp;
    (destruct pulls as [|pulls]; [simpl in Hp; lia|]);
    pose proof (Hfeed 0) as H0; rewrite Nat.add_0_r in H0; simpl in H0.
  - exists [EvRead false; EvRelease].
    cbn [serve gen_next frame_loop]. unfold iteration. simpl. rewrite H0.
    repeat split; reflexivity.
  - destruct (IH (snd (cap_read cap)) pulls) as (tr & Hs & Hr & Ho & Hd).
    + intros i. simpl. specialize (Hfeed (S i)).
      now rewrite Nat.add_succ_r in Hfeed.
    + intros g Hg. apply Henc. now right.
    + simpl in Hp. lia.
    + exists ([EvRead true; EvPredict; EvPlot; EvEncode true] ++ tr).
      cbn [serve gen_next frame_loop]. unfold iteration.
      cbn [cap_read]. rewrite H0.
      rewrite (process_frame_status (Henc f (or_introl eq_refl))).
      cbn [cap_read snd] in Hs. rewrite Hs.
      rewrite !count_app, Hr, Ho, Hd. repeat split; reflexivity.
Qed.

(** The first resumption of a generator whose source opens is a resumption
    of the loop on the fresh capture, after the open. *)
Lemma serve_created (fuel pulls : nat) (src : source) (conf iou : float) :
  cap_opened (VideoCapture src) = true ->
  serve fuel (S pulls) (GenCreated src conf iou)
  = match serve fuel (S pulls) (GenSuspended (VideoCapture src) conf iou) with
    | None => None
    | Some (chunks, fin, g, tr) => Some (chunks, fin, g, EvOpen src true :: tr)
    end.
Proof.
  intros Hop. cbn [serve gen_next]. rewrite Hop. simpl.
  destruct (frame_loop fuel (VideoCapture src) conf iou) as [[[[c| |e] g] evs]|];
    trivial.
  now destruct (serve fuel pulls g) as [[[[? ?] ?] ?]|].
Qed.

(** C5. A stored video of [N] frames, each of which is detected, annotated
    and encoded successfully, played to a client that stays connected:
    the generator yields exactly [N] parts, the encoded frames in stored
    order, and then returns normally (the read that reports no frame ends
    the loop, nothing is raised); the capture was opened and released
    once, and read [N + 1] times. One pass of the loop per resumption is
    enough. *)
Theorem stored_video_yields_every_frame :
  forall (src : source) (frames : list frame) (conf iou : float)
         (jpeg : frame -> bytes) (fuel pulls : nat),
    VideoCapture src = file_capture frames ->
    (forall f, In f frames -> encode_status f conf iou true (jpeg f)) ->
    1 <= fuel ->
    List.length frames < pulls ->
    exists tr,
      serve fuel pulls (GenCreated src conf iou)
      = Some (map (fun f => frame_chunk (jpeg f)) frames, Exhausted, GenFinished, tr)
      /\ List.length (map (fun f => frame_chunk (jpeg f)) frames) = List.length frames
      /\ count is_open tr = 1
      /\ count is_release tr = 1
      /\ count is_read tr = S (List.length frames).
Proof.
  pipeline_only. intros src frames conf iou jpeg fuel pulls Hcap Henc Hfuel Hp.
  destruct fuel as [|fuel]; [lia|].
  destruct pulls as [|pulls]; [lia|].
  destruct (@serve_stored_frames jpeg conf iou fuel frames (VideoCapture src) (S pulls))
    as (tr & Hs & Hr & Ho & Hd); trivial.
  - intros i. now rewrite Hcap.
  - exists (EvOpen src true :: tr).
    rewrite serve_created by now rewrite Hcap.
    rewrite Hs, !count_cons, Hr, Ho, Hd, length_map. repeat split; reflexivity.
Qed.

(** C3. When the capture source does not open, the first resumption of the
    generator raises the open error and finishes the generator: the only
    event is the failed open, so no frame was read (the loop was not
    entered), nothing was released, and no later call on the generator
    yields a chunk. Releasing the unopened capture would change nothing. *)
Theorem open_failure_raises_before_streaming :
  forall (fuel : nat) (acts : list action) (src : source) (conf iou : float),
    cap_opened (VideoCapture src) = false ->
    exists outs,
      run_actions fuel (Next :: acts) (GenCreated src conf iou)
      = Some (GenFinished, [EvOpen src false],
              Raised (RuntimeError ("Could not open video: " ++ str_of_source src)%string)
              :: outs)
      /\ chunks_of outs = []
      /\ count is_read [EvOpen src false] = 0
      /\ count is_release [EvOpen src false] = 0
      /\ cap_release (VideoCapture src) = VideoCapture src.
Proof.
  intros fuel acts src conf iou Hop. simpl. rewrite Hop. simpl.
  destruct (run_actions fuel acts GenFinished) as [[[g tr] outs]|] eqn:R.
  - destruct (run_actions_finished _ _ R) as (-> & -> & Hc).
    exists outs. repeat split; trivial.
    destruct (VideoCapture src) as [o f p]. simpl in Hop. now subst.
  - exfalso. clear -R. induction acts as [|[|] acts IH]; simpl in R;
      try discriminate;
      destruct (run_actions fuel acts GenFinished) as [[[? ?] ?]|]; auto; discriminate.
Qed.

(** ** Properties of the endpoints *)

(** *** Paths *)

Lemma contains_rfind (c : ascii) (s : string) :
  contains c s = false <-> rfind c s = None.
Proof.
  induction s as [|a s IH]; simpl; [tauto|].
  destruct (Ascii.eqb a c); simpl.
  - split; [discriminate|]. now destruct (rfind c s).
  - rewrite IH. destruct (rfind c s); split; congruence.
Qed.

Lemma rfind_basename (p : string) : rfind slash (basename p) = None.
Proof.
  unfold basename. induction p as [|a p IH]; simpl; trivial.
  destruct (rfind slash p) as [i|] eqn:E; simpl in *; trivial.
  destruct (Ascii.eqb a slash) eqn:A; simpl; trivial.
  now rewrite E, A.
Qed.

Lemma basename_no_slash (p : string) :
  rfind slash p = None -> basename p = p.
Proof. unfold basename. now intros ->. Qed.

Lemma rfind_app (c : ascii) (a b : string) :
  rfind c (a ++ b)
  = match rfind c b with
    | Some i => Some (String.length a + i)
    | None => rfind c a
    end.
Proof.
  induction a as [|x a IH]; simpl.
  - now destruct (rfind c b).
  - rewrite IH. now destruct (rfind c b).
Qed.

Lemma drop_app (a b : string) : drop (String.length a) (a ++ b) = b.
Proof. induction a; simpl; trivial. Qed.

Lemma app_slash (d name : string) :
  (d ++ String "/" name)%string = ((d ++ "/") ++ name)%string.
Proof. induction d; simpl; congruence. Qed.

Lemma length_app_slash (d : string) :
  String.length (d ++ "/") = S (String.length d).
Proof. induction d; simpl; congruence. Qed.

Lemma basename_in_folder (d name : string) :
  contains slash name = false ->
  basename (d ++ "/" ++ name) = name.
Proof.
  intros H. apply contains_rfind in H. unfold basename.
  change ("/" ++ name)%string with (String slash name).
  rewrite rfind_app.
  assert (rfind slash (String slash name) = Some 0) as -> by (simpl; now rewrite H).
  rewrite Nat.add_0_r, <- length_app_slash.
  unfold slash. rewrite (app_slash d name). apply drop_app.
Qed.

Lemma join_upload_folder (name : string) :
  startswith slash name = false ->
  path_join UPLOAD_FOLDER name = (UPLOAD_FOLDER ++ "/" ++ name)%string.
Proof. unfold path_join. now intros ->. Qed.

Lemma contains_startswith (c : ascii) (s : string) :
  contains c s = false -> startswith c s = false.
Proof. destruct s; simpl; trivial. now intros [H _]%orb_false_iff. Qed.

(** *** Threshold parsing *)

Lemma py_float_ok (key : string) (d : list (string * string)) (default v : float) :
  py_float (get_or key d default) = Ok v <-> threshold key d default v.
Proof.
  unfold py_float, get_or, threshold.
  destruct (multidict_get key d) as [s|].
  - destruct (float_of_string s); split; congruence.
  - split; congruence.
Qed.

Lemma py_float_malformed (key : string) (d : list (string * string)) (default : float) :
  malformed key d ->
  exists s, py_float (get_or key d default) = Raise (ValueError s).
Proof.
  intros (s & Hs & Hf). exists s.
  unfold py_float, get_or. now rewrite Hs, Hf.
Qed.

Lemma py_float_cases (key : string) (d : list (string * string)) (default : float) :
  (exists v, py_float (get_or key d default) = Ok v)
  \/ (exists s, py_float (get_or key d default) = Raise (ValueError s)).
Proof.
  unfold py_float, get_or.
  destruct (multidict_get key d) as [s|]; [|eauto].
  destruct (float_of_string s); eauto.
Qed.

Lemma video_feed_ok (req : request) (resp : response) :
  video_feed req = Ok resp ->
  exists conf iou cam,
    resp = StreamResponse (GenCreated (Device cam) conf iou) MJPEG_MIMETYPE
    /\ threshold "conf" (args req) default_conf conf
    /\ threshold "iou" (args req) default_iou iou.
Proof.
  unfold video_feed.
  destruct (py_float (get_or "conf" (args req) default_conf)) as [conf|e] eqn:C;
    [|discriminate].
  destruct (py_float (get_or "iou" (args req) default_iou)) as [iou|e] eqn:I;
    [|discriminate].
  destruct (py_int (get_or "cam" (args req) 0%Z)) as [cam|e]; [|discriminate].
  simpl. intros [= <-]. exists conf, iou, cam.
  apply py_float_ok in C. apply py_float_ok in I. auto.
Qed.

Lemma stream_video_ok (req : request) (g : gen_state frame) (mimetype : string) :
  stream_video req = Ok (StreamResponse g mimetype) ->
  exists conf iou video_file,
    multidict_get "video_file" (args req) = Some video_file
    /\ isfile (resolve_video_path video_file) = true
    /\ g = GenCreated (FilePath (resolve_video_path video_file)) conf iou
    /\ mimetype = MJPEG_MIMETYPE
    /\ threshold "conf" (args req) default_conf conf
    /\ threshold "iou" (args req) default_iou iou.
Proof.
  unfold stream_video.
  destruct (py_float (get_or "conf" (args req) default_conf)) as [conf|e] eqn:C;
    [|discriminate].
  destruct (py_float (get_or "iou" (args req) default_iou)) as [iou|e] eqn:I;
    [|discriminate].
  simpl.
  destruct (multidict_get "video_file" (args req)) as [[|a v]|]; try discriminate.
  destruct (isfile (resolve_video_path (String a v))) eqn:F; simpl; [|discriminate].
  intros [= <- <-]. exists conf, iou, (String a v).
  apply py_float_ok in C. apply py_float_ok in I. auto 7.
Qed.

Ltac case_unique_name :=
  match goal with
  | |- context [unique_name ?p ?f ?w] =>
      let name := fresh "name" in
      let w' := fresh "w" in
      destruct (unique_name p f w) as [name w'] eqn:?
  end.

Ltac case_detector :=
  match goal with
  | |- context [model_predict_file ?p ?c ?a ?b] =>
      let r := fresh "r" in
      let rs := fresh "rs" in
      let e := fresh "e" in
      destruct (model_predict_file p c a b) as [[|r rs]|e] eqn:?
  end.

Ltac case_image_save :=
  match goal with
  | |- context [image_save ?im ?p] =>
      let e := fresh "e" in
      destruct (image_save im p) as [[]|e] eqn:?
  end.

Lemma predict_file_thresholds (file : file_storage) (conf iou : float) (w w' : world)
    (rec : result_record) :
  predict_file file conf iou w = (Ok (Some rec), w') ->
  rec_conf rec = conf /\ rec_iou rec = iou.
Proof.
  unfold predict_file.
  destruct (filename file =? EmptyString)%string; [discriminate|].
  case_unique_name.
  destruct (classify_video (secure_filename (filename file))); simpl.
  - now intros [= <- <-].
  - case_detector; try discriminate.
    destruct (plot r); [|discriminate].
    case_image_save; [|discriminate].
    now intros [= <- <-].
Qed.

Lemma predict_loop_thresholds (fs : list file_storage) (conf iou : float) :
  forall (acc : list result_record) (w w' : world) (recs : list result_record),
    Forall (fun rec => rec_conf rec = conf /\ rec_iou rec = iou) acc ->
    predict_loop fs conf iou acc w = (Ok recs, w') ->
    Forall (fun rec => rec_conf rec = conf /\ rec_iou rec = iou) recs.
Proof.
  induction fs as [|file fs IH]; intros acc w w' recs Hacc; simpl.
  - now intros [= <- <-].
  - destruct (predict_file file conf iou w) as [[[rec|]|e] w1] eqn:F; try discriminate.
    + apply IH. apply Forall_app. split; trivial.
      constructor; [|constructor]. eapply predict_file_thresholds; eassumption.
    + now apply IH.
Qed.

Lemma malformed_either (d : list (string * string)) (A : Type)
    (k : float -> float -> result A) :
  malformed "conf" d \/ malformed "iou" d ->
  exists s,
    (conf <- py_float (get_or "conf" d default_conf) ;;
     iou <- py_float (get_or "iou" d default_iou) ;;
     k conf iou) = Raise (ValueError s).
Proof.
  intros [H|H].
  - apply (py_float_malformed default_conf) in H as [s ->]. now exists s.
  - apply (py_float_malformed default_iou) in H as [s H].
    destruct (py_float_cases "conf" d default_conf) as [[c ->]|[s' ->]]; simpl.
    + rewrite H. now exists s.
    + now exists s'.
Qed.

(** C2 (as the code has it). In [video_feed], [stream_video] and [predict]
    a response is produced only from thresholds that are the defaults 0.25
    and 0.45 where the parameter is absent and the parsed value where it is
    present; a present parameter that [float] rejects makes the view
    function raise [ValueError], which nothing catches: the request fails
    with status 500, and the default is never substituted. In [predict] the
    two checks on the uploaded files come first: a request without a [file]
    field, or whose uploads all have an empty filename, gets its 400 answer
    whatever the thresholds are, and every other request with a malformed
    threshold fails with [ValueError] before anything is saved. *)
Theorem malformed_threshold_fails_request :
  forall req : request,
    (forall resp, video_feed req = Ok resp ->
       exists conf iou cam,
         resp = StreamResponse (GenCreated (Device cam) conf iou) MJPEG_MIMETYPE
         /\ threshold "conf" (args req) default_conf conf
         /\ threshold "iou" (args req) default_iou iou)
    /\ (forall g mimetype, stream_video req = Ok (StreamResponse g mimetype) ->
         exists conf iou path,
           g = GenCreated (FilePath path) conf iou
           /\ threshold "conf" (args req) default_conf conf
           /\ threshold "iou" (args req) default_iou iou)
    /\ (forall w w' template recs,
         predict req w = (Ok (TemplateResponse template recs), w') ->
         exists conf iou,
           threshold "conf" (form req) default_conf conf
           /\ threshold "iou" (form req) default_iou iou
           /\ Forall (fun rec => rec_conf rec = conf /\ rec_iou rec = iou) recs)
    /\ (malformed "conf" (args req) \/ malformed "iou" (args req) ->
         (exists s, video_feed req = Raise (ValueError s)
                    /\ http_status (video_feed req) = 500%Z)
         /\ (exists s, stream_video req = Raise (ValueError s)
                       /\ http_status (stream_video req) = 500%Z))
    /\ (malformed "conf" (form req) \/ malformed "iou" (form req) ->
         forall w,
           (has_key "file" (files req) = false ->
            predict req w = (Ok (TextResponse "No file uploaded" 400), w))
           /\ (has_key "file" (files req) = true ->
               forallb (fun f => (filename f =? EmptyString)%string)
                 (getlist "file" (files req)) = true ->
               predict req w = (Ok (TextResponse "No selected files" 400), w))
           /\ (has_key "file" (files req) = true ->
               forallb (fun f => (filename f =? EmptyString)%string)
                 (getlist "file" (files req)) = false ->
               exists s, predict req w = (Raise (ValueError s), w)
                         /\ http_status (fst (predict req w)) = 500%Z)).
Proof.
  clear VideoCapture model_predict imencode.
  intros req. split; [|split; [|split; [|split]]].
  - apply video_feed_ok.
  - intros g m H. apply stream_video_ok in H
      as (conf & iou & v & _ & _ & -> & _ & C & I).
    exists conf, iou, (resolve_video_path v). auto.
  - intros w w' template recs. unfold predict.
    destruct (negb (has_key "file" (files req))); [discriminate|].
    destruct (_ || _); [discriminate|].
    destruct (py_float (get_or "conf" (form req) default_conf)) as [conf|e] eqn:C;
      [|discriminate].
    destruct (py_float (get_or "iou" (form req) default_iou)) as [iou|e] eqn:I;
      [|discriminate].
    destruct (predict_loop _ conf iou [] w) as [[rs|e] w1] eqn:L; [|discriminate].
    intros [= _ <- <-]. exists conf, iou.
    apply py_float_ok in C. apply py_float_ok in I.
    repeat split; trivial. eapply predict_loop_thresholds; [|exact L]. constructor.
  - intros M. split.
    + destruct (malformed_either
                  (fun conf iou =>
                     cam_index <- py_int (get_or "cam" (args req) 0%Z) ;;
                     Ok (StreamResponse (GenCreated (Device cam_index) conf iou)
                           MJPEG_MIMETYPE)) M) as [s E].
      exists s. unfold video_feed. now rewrite E.
    + destruct (malformed_either
                  (fun conf iou =>
                     match multidict_get "video_file" (args req) with
                     | None | Some EmptyString =>
                         Ok (TextResponse "Missing video file path" 400)
                     | Some video_file =>
                         if negb (isfile (resolve_video_path video_file))
                         then Ok (TextResponse
                                    ("Video not found: "
                                     ++ resolve_video_path video_file)%string 404)
                         else Ok (StreamResponse
                                    (GenCreated
                                       (FilePath (resolve_video_path video_file))
                                       conf iou) MJPEG_MIMETYPE)
                     end) M) as [s E].
      exists s. unfold stream_video. now rewrite E.
  - intros M w. unfold predict. split; [|split].
    + now intros ->.
    + intros -> ->. now rewrite orb_true_r.
    + intros -> A. simpl negb. cbv iota.
      destruct (getlist "file" (files req)) as [|f0 fs0]; [discriminate A|].
      rewrite A. simpl orb. cbv iota.
      destruct M as [M|M].
      * apply (py_float_malformed default_conf) in M as [s ->]. now exists s.
      * apply (py_float_malformed default_iou) in M as [s M].
        destruct (py_float_cases "conf" (form req) default_conf) as [[c ->]|[s' ->]].
        -- rewrite M. now exists s.
        -- now exists s'.
Qed.

(** *** Client errors *)

(** C8. A batch request without a [file] field, or whose uploads all have an
    empty filename, is answered with status 400 and leaves the world as it
    was: nothing is saved and the detector is not invoked. *)
Theorem predict_rejects_missing_files :
  forall (req : request) (w : world),
    has_key "file" (files req) = false
    \/ forallb (fun f => (filename f =? EmptyString)%string) (getlist "file" (files req)) = true ->
    exists body,
      predict req w = (Ok (TextResponse body 400), w)
      /\ http_status (fst (predict req w)) = 400%Z
      /\ count is_save (log (snd (predict req w))) = count is_save (log w)
      /\ count is_detect (log (snd (predict req w))) = count is_detect (log w).
Proof.
  intros req w H. unfold predict.
  destruct (has_key "file" (files req)); simpl.
  - destruct H as [H|H]; [discriminate|]. rewrite H, orb_true_r.
    exists "No selected files". auto.
  - exists "No file uploaded". auto.
Qed.

(** C9 (as the code has it). When [conf] and [iou] are absent or parse,
    [stream_video] answers 400 if [video_file] is missing or empty and 404
    if the path it resolves to is not an existing file; either answer
    carries no generator, so delivering it writes no multipart chunk and
    touches no capture source. *)
Theorem stream_video_client_errors :
  forall (req : request) (conf iou : float),
    threshold "conf" (args req) default_conf conf ->
    threshold "iou" (args req) default_iou iou ->
    (multidict_get "video_file" (args req) = None
     \/ multidict_get "video_file" (args req) = Some EmptyString ->
     stream_video req = Ok (TextResponse "Missing video file path" 400))
    /\ (forall video_file,
          multidict_get "video_file" (args req) = Some video_file ->
          video_file <> EmptyString ->
          isfile (resolve_video_path video_file) = false ->
          stream_video req
          = Ok (TextResponse
                  ("Video not found: " ++ resolve_video_path video_file)%string 404))
    /\ (forall body status,
          stream_video req = Ok (TextResponse body status) ->
          (status = 400%Z \/ status = 404%Z)
          /\ http_status (stream_video req) = status
          /\ forall fuel pulls, deliver fuel pulls (stream_video req) = Some ([], [])).
Proof.
  intros req conf iou C I.
  apply py_float_ok in C. apply py_float_ok in I.
  unfold stream_video. rewrite C, I. simpl. split; [|split].
  - now intros [-> | ->].
  - intros v -> Hv F. destruct v as [|a v]; [contradiction|]. now rewrite F.
  - intros body status.
    destruct (multidict_get "video_file" (args req)) as [[|a v]|].
    + intros [= <- <-]. auto.
    + destruct (isfile (resolve_video_path (String a v))); simpl;
        [discriminate|]. intros [= <- <-]. auto.
    + intros [= <- <-]. auto.
Qed.

(** *** The streamed body *)

Lemma serve_parts (fuel pulls : nat) :
  forall (g g' : gen_state frame) chunks fin tr,
    serve fuel pulls g = Some (chunks, fin, g', tr) ->
    Forall mjpeg_part chunks.
Proof.
  induction pulls as [|pulls IH]; intros g g' chunks fin tr; simpl.
  - destruct (gen_close g). now intros [= <- <- <- <-].
  - destruct (gen_next fuel g) as [[[[c| |e] g1] evs]|] eqn:N; try discriminate.
    + destruct (serve fuel pulls g1) as [[[[cs f1] g2] evs']|] eqn:S; [|discriminate].
      intros [= <- <- <- <-]. constructor.
      * apply gen_next_encoded in N as (_ & N). now apply N.
      * eapply IH; eassumption.
    + now intros [= <- <- <- <-].
    + now intros [= <- <- <- <-].
Qed.

Lemma mjpeg_part_boundary (chunk : bytes) :
  mjpeg_part chunk ->
  prefix ("--frame" ++ CRLF) chunk = true /\ prefix end_marker chunk = false.
Proof. intros (annotated & jpeg & _ & ->). split; reflexivity. Qed.

(** C6. Whatever [video_feed] or [stream_video] streams has the content type
    [multipart/x-mixed-replace; boundary=frame], and every chunk written is
    the boundary line, the JPEG content-type line, an empty line, the bytes
    [imencode] produced, and a line break. Each chunk opens with the plain
    boundary line, never with the closing delimiter: the body is only ever
    ended by the connection. *)
Theorem streamed_body_is_mjpeg :
  forall (req : request) (g g' : gen_state frame) (mimetype : string)
         (fuel pulls : nat) (chunks : list bytes) (fin : body_end) (tr : trace),
    video_feed req = Ok (StreamResponse g mimetype)
    \/ stream_video req = Ok (StreamResponse g mimetype) ->
    serve fuel pulls g = Some (chunks, fin, g', tr) ->
    mimetype = "multipart/x-mixed-replace; boundary=frame"
    /\ Forall mjpeg_part chunks
    /\ Forall (fun chunk => prefix ("--frame" ++ CRLF) chunk = true
                             /\ prefix end_marker chunk = false) chunks.
Proof.
  intros req g g' mimetype fuel pulls chunks fin tr H S.
  apply serve_parts in S. split; [|split; trivial].
  - destruct H as [H|H].
    + apply video_feed_ok in H as (c & i & cam & [= _ ->] & _). reflexivity.
    + apply stream_video_ok in H as (c & i & v & _ & _ & _ & -> & _). reflexivity.
  - eapply Forall_impl; [|exact S]. apply mjpeg_part_boundary.
Qed.

(** *** The file that is streamed *)

(** C10. Whatever string arrives as [video_file], the generator handed to
    the response opens exactly the upload folder joined with
    [secure_filename (basename video_file)]. Directory components before
    the last slash play no part; and since the sanitized name holds no
    slash, that path names an entry directly inside the upload folder. *)
Theorem stream_video_opens_sanitized_basename :
  forall (req : request) (g : gen_state frame) (mimetype : string),
    stream_video req = Ok (StreamResponse g mimetype) ->
    exists video_file conf iou,
      multidict_get "video_file" (args req) = Some video_file
      /\ g = GenCreated
               (FilePath (path_join UPLOAD_FOLDER
                            (secure_filename (basename video_file)))) conf iou
      /\ (forall fuel o g' evs,
            gen_next fuel g = Some (o, g', evs) ->
            exists ok,
              hd_error evs
              = Some (EvOpen (FilePath (path_join UPLOAD_FOLDER
                                          (secure_filename (basename video_file))))
                        ok))
      /\ resolve_video_path video_file = resolve_video_path (basename video_file)
      /\ (forall dir name,
            contains slash name = false ->
            resolve_video_path (dir ++ "/" ++ name) = resolve_video_path name)
      /\ (contains slash (secure_filename (basename video_file)) = false ->
          directly_in UPLOAD_FOLDER (resolve_video_path video_file)).
Proof.
  intros req g mimetype H.
  apply stream_video_ok in H as (conf & iou & v & Hv & F & -> & _).
  exists v, conf, iou. unfold resolve_video_path.
  split; [exact Hv|]. split; [reflexivity|]. split; [|split; [|split]].
  - intros fuel o g' evs. simpl.
    destruct (negb (cap_opened (VideoCapture _))).
    + intros [= <- <- <-]. now exists false.
    + destruct (frame_loop _ _ _ _) as [[[o1 g1] evs1]|]; [|discriminate].
      intros [= <- <- <-]. now exists true.
  - now rewrite (basename_no_slash _ (rfind_basename v)).
  - intros dir name Hn. now rewrite basename_in_folder, basename_no_slash
      by (trivial; now apply contains_rfind).
  - intros Hs. exists (secure_filename (basename v)). split; trivial.
    apply join_upload_folder. now apply contains_startswith.
Qed.

(** *** Batch classification *)


Lemma contains_app (c : ascii) (a b : string) :
  contains c (a ++ b) = contains c a || contains c b.
Proof. induction a as [|x a IH]; simpl; trivial. now rewrite IH, orb_assoc. Qed.







(** ** Further properties of the frame generator *)

Lemma iteration_reads (cap : capture frame) (conf iou : float) x cap' evs :
  iteration cap conf iou = (x, cap', evs) ->
  cap' = snd (cap_read cap) /\ count is_read evs = 1.
Proof.
  unfold iteration. simpl.
  destruct (cap_feed cap (cap_pos cap)) as [f|].
  - destruct (process_frame f conf iou) as [y evs0] eqn:E.
    intros [= <- <- <-]. split; trivial. rewrite count_cons. simpl.
    f_equal. revert E. unfold process_frame.
    destruct (model_predict f conf iou) as [[|r rs]|e]; try now intros [= <- <-].
    destruct (plot r) as [annotated|e]; try now intros [= <- <-].
    destruct (imencode annotated) as [[[|] buffer]|e]; now intros [= <- <-].
  - now intros [= <- <- <-].
Qed.

(** A resumption on a source that runs dry returns. *)
Lemma frame_loop_finite :
  forall (n : nat) (cap : capture frame) (conf iou : float) (fuel : nat),
    cap_feed cap (cap_pos cap + n) = None ->
    n < fuel ->
    exists r, frame_loop fuel cap conf iou = Some r.
Proof.
  induction n as [|n IH]; intros cap conf iou fuel Hend Hfuel;
    (destruct fuel as [|fuel]; [lia|]); simpl;
    destruct (iteration cap conf iou) as [[x cap'] evs0] eqn:E;
    pose proof (iteration_reads _ _ _ E) as (-> & _).
  - unfold iteration in E. simpl in E.
    rewrite Nat.add_0_r in Hend. rewrite Hend in E. injection E as <- <-. eauto.
  - destruct x as [| |chunk|e]; eauto.
    destruct (IH (snd (cap_read cap)) conf iou fuel) as ([[o g] evs] & ->);
      [simpl; now rewrite Nat.add_succ_r in Hend|lia|eauto].
Qed.

(** X1. On a source that runs dry, one resumption of the loop always comes
    back: if the read [n] positions ahead reports no frame, more than [n]
    passes are never needed, however many frames fail to encode, and at
    most [n + 1] reads are made. *)
Theorem frame_loop_returns_on_finite_source :
  forall (n : nat) (cap : capture frame) (conf iou : float) (fuel : nat),
    cap_feed cap (cap_pos cap + n) = None ->
    n < fuel ->
    exists o g evs,
      frame_loop fuel cap conf iou = Some (o, g, evs)
      /\ count is_read evs <= S n.
Proof.
  pipeline_only.
  induction n as [|n IH]; intros cap conf iou fuel Hend Hfuel;
    (destruct fuel as [|fuel]; [lia|]); simpl;
    destruct (iteration cap conf iou) as [[x cap'] evs0] eqn:E;
    pose proof (iteration_reads _ _ _ E) as (-> & R1);
    unfold iteration in E; simpl in E.
  - rewrite Nat.add_0_r in Hend. rewrite Hend in E.
    injection E as <- <-. eexists _, _, _. split; [reflexivity|]. cbn. lia.
  - destruct x as [| |chunk|e].
    + eexists _, _, _. split; [reflexivity|]. rewrite count_app, R1. cbn. lia.
    + destruct (IH (snd (cap_read cap)) conf iou fuel) as (o & g & evs & -> & R).
      * simpl. now rewrite Nat.add_succ_r in Hend.
      * lia.
      * eexists _, _, _. split; [reflexivity|]. rewrite count_app, R1. lia.
    + eexists _, _, _. split; [reflexivity|]. lia.
    + eexists _, _, _. split; [reflexivity|]. rewrite count_app, R1. cbn. lia.
Qed.

Lemma frame_loop_more_fuel (fuel : nat) :
  forall (fuel' : nat) (cap : capture frame) (conf iou : float) r,
    frame_loop fuel cap conf iou = Some r ->
    fuel <= fuel' ->
    frame_loop fuel' cap conf iou = Some r.
Proof.
  induction fuel as [|fuel IH]; intros fuel' cap conf iou r; [discriminate|].
  intros H L. destruct fuel' as [|fuel']; [lia|]. simpl in *.
  destruct (iteration cap conf iou) as [[[| |chunk|e] cap'] evs0]; trivial.
  destruct (frame_loop fuel cap' conf iou) as [r1|] eqn:F; [|discriminate].
  now rewrite (IH fuel' _ _ _ _ F) by lia.
Qed.

(** The reference body, by what the loop body makes of the first frame. *)
Lemma play_cons (f : frame) (rest : list frame) (conf iou : float) :
  play (f :: rest) conf iou
  = match fst (process_frame f conf iou) with
    | IterBreak => play (f :: rest) conf iou
    | IterContinue => play rest conf iou
    | IterYield chunk =>
        (chunk :: fst (play rest conf iou), snd (play rest conf iou))
    | IterRaise e => ([], Failed e)
    end.
Proof.
  unfold process_frame. cbn [play].
  destruct (model_predict f conf iou) as [[|r rs]|e]; trivial.
  destruct (plot r) as [annotated|e]; trivial.
  destruct (imencode annotated) as [[[|] jpeg]|e]; trivial.
  cbn [fst]. destruct (play rest conf iou) as [chunks fin]. reflexivity.
Qed.

Lemma play_length (frames : list frame) (conf iou : float) :
  List.length (fst (play frames conf iou)) <= List.length frames.
Proof.
  induction frames as [|f frames IH]; [simpl; lia|].
  rewrite play_cons.
  destruct (process_frame f conf iou) as [[| |chunk|e] evs] eqn:E; cbn [fst];
    simpl; try lia.
  apply process_frame_events in E. tauto.
Qed.

Lemma play_served (conf iou : float) (fuel : nat) :
  forall (rest : list frame) (cap : capture frame) (pulls : nat),
    (forall i, cap_feed cap (cap_pos cap + i) = nth_error rest i) ->
    List.length rest < fuel ->
    List.length rest < pulls ->
    exists tr,
      serve fuel pulls (GenSuspended cap conf iou)
      = Some (fst (play rest conf iou), snd (play rest conf iou), GenFinished, tr)
      /\ count is_release tr = 1
      /\ count is_open tr = 0.
Proof.
  induction rest as [|f rest IH]; intros cap pulls Hfeed Hfuel Hp;
    (destruct pulls as [|pulls]; [simpl in Hp; lia|]);
    (destruct fuel as [|fuel0]; [simpl in Hfuel; lia|]);
    pose proof (Hfeed 0) as H0; rewrite Nat.add_0_r in H0; simpl in H0.
  - exists [EvRead false; EvRelease].
    cbn [serve gen_next frame_loop]. unfold iteration. simpl. rewrite H0.
    repeat split; reflexivity.
  - assert (Hfeed' : forall i,
               cap_feed (snd (cap_read cap)) (cap_pos (snd (cap_read cap)) + i)
               = nth_error rest i).
    { intros i. simpl. specialize (Hfeed (S i)).
      now rewrite Nat.add_succ_r in Hfeed. }
    simpl in Hfuel, Hp. rewrite play_cons.
    cbn [serve gen_next frame_loop]. unfold iteration. cbn [cap_read].
    rewrite H0.
    destruct (process_frame f conf iou) as [x evs0] eqn:E.
    pose proof (process_frame_events _ _ _ E) as (Ho & Hr & Hb).
    cbn [fst]. destruct x as [| |chunk|e].
    + contradiction.
    + (* the frame is skipped: the same resumption goes on *)
      destruct (IH (snd (cap_read cap)) (S pulls) Hfeed') as (tr & Hs & Rr & Ro);
        [lia|lia|].
      cbn [serve gen_next] in Hs.
      destruct (@frame_loop_finite (List.length rest)
                  (snd (cap_read cap)) conf iou fuel0) as ([[o g] evs] & F).
      * rewrite Hfeed'. apply nth_error_None. lia.
      * lia.
      * rewrite (frame_loop_more_fuel _ _ _ F (Nat.le_succ_diag_r fuel0)) in Hs.
        cbn [cap_read snd] in F. rewrite F.
        destruct o as [c| |e].
        -- destruct (serve (S fuel0) pulls g) as [[[[cs fin] g2] evs']|];
             [|discriminate].
           injection Hs as Hc Hf -> <-.
           eexists. split; [rewrite <- Hc, <- Hf; reflexivity|].
           rewrite !count_app in *. rewrite !count_cons. cbn. rewrite Ho, Hr. lia.
        -- injection Hs as Hc Hf -> <-.
           eexists. split; [rewrite <- Hc, <- Hf; reflexivity|].
           rewrite !count_app in *. rewrite !count_cons. cbn. rewrite Ho, Hr. lia.
        -- injection Hs as Hc Hf -> <-.
           eexists. split; [rewrite <- Hc, <- Hf; reflexivity|].
           rewrite !count_app in *. rewrite !count_cons. cbn. rewrite Ho, Hr. lia.
    + (* the frame is emitted *)
      destruct (IH (snd (cap_read cap)) pulls Hfeed') as (tr & Hs & Rr & Ro);
        [lia|lia|].
      cbn [cap_read snd] in Hs. rewrite Hs. cbn [fst snd].
      eexists. split; [reflexivity|].
      rewrite !count_app, !count_cons. cbn. rewrite Ho, Hr. lia.
    + (* the frame raises: the body ends *)
      eexists. split; [reflexivity|].
      rewrite !count_app, !count_cons. cbn. rewrite Ho, Hr. split; reflexivity.
Qed.

(** X2. What a stored video produces for a client that stays connected,
    whatever happens to its frames: the parts of the frames that encode, in
    stored order, with the frames whose encoding reports failure left out;
    the body ends normally after the last frame, or at the first frame whose
    processing raises; either way the capture is released once. As many
    loop passes and pulls as there are frames, plus one, are enough. *)
Theorem stored_video_body :
  forall (src : source) (frames : list frame) (conf iou : float) (fuel pulls : nat),
    VideoCapture src = file_capture frames ->
    List.length frames < fuel ->
    List.length frames < pulls ->
    exists tr,
      serve fuel pulls (GenCreated src conf iou)
      = Some (fst (play frames conf iou), snd (play frames conf iou), GenFinished, tr)
      /\ List.length (fst (play frames conf iou)) <= List.length frames
      /\ count is_open tr = 1
      /\ count is_release tr = 1.
Proof.
  pipeline_only. intros src frames conf iou fuel pulls Hcap Hfuel Hp.
  destruct pulls as [|pulls]; [lia|].
  destruct (@play_served conf iou fuel frames (VideoCapture src) (S pulls))
    as (tr & Hs & Hr & Ho); trivial.
  - intros i. now rewrite Hcap.
  - exists (EvOpen src true :: tr).
    rewrite serve_created by now rewrite Hcap.
    rewrite Hs, !count_cons, Hr, Ho. repeat split; trivial.
    apply play_length.
Qed.



Lemma frame_loop_position (fuel : nat) :
  forall (cap cap' : capture frame) (conf iou conf' iou' : float) o evs,
    frame_loop fuel cap conf iou = Some (o, GenSuspended cap' conf' iou', evs) ->
    cap_feed cap' = cap_feed cap
    /\ cap_opened cap' = cap_opened cap
    /\ cap_pos cap' = cap_pos cap + count is_read evs
    /\ conf' = conf /\ iou' = iou.
Proof.
  induction fuel as [|fuel IH]; intros cap cap' conf iou conf' iou' o evs; simpl;
    [discriminate|].
  destruct (iteration cap conf iou) as [[x cap1] evs0] eqn:E.
  apply iteration_reads in E as (-> & R).
  destruct x as [| |chunk|e]; try discriminate.
  - destruct (frame_loop fuel (snd (cap_read cap)) conf iou) as [[[o1 g1] evs1]|] eqn:L;
      [|discriminate].
    intros [= <- -> <-]. apply IH in L as (F & O & P & -> & ->).
    rewrite F, O, P, count_app, R. simpl. repeat split; trivial; lia.
  - intros [= <- <- <- <- <-]. rewrite R. simpl. repeat split; trivial; lia.
Qed.

Lemma gen_next_position (fuel : nat) (g g' : gen_state frame) o evs
    (src : source) (pre : trace) :
  match g with
  | GenCreated s _ _ => s = src /\ count is_read pre = 0
  | GenSuspended cap _ _ =>
      cap_feed cap = cap_feed (VideoCapture src)
      /\ cap_pos cap = cap_pos (VideoCapture src) + count is_read pre
  | GenFinished => True
  end ->
  gen_next fuel g = Some (o, g', evs) ->
  match g' with
  | GenCreated _ _ _ => False
  | GenSuspended cap _ _ =>
      cap_feed cap = cap_feed (VideoCapture src)
      /\ cap_pos cap = cap_pos (VideoCapture src) + count is_read (pre ++ evs)
  | GenFinished => True
  end.
Proof.
  destruct g as [s conf iou|cap conf iou|]; simpl.
  - intros (-> & P).
    destruct (negb (cap_opened (VideoCapture src))); [now intros [= <- <- <-]|].
    destruct (frame_loop fuel (VideoCapture src) conf iou) as [[[o1 g1] evs1]|] eqn:L;
      [|discriminate].
    intros [= <- <- <-]. destruct g1 as [| cap1 c1 i1|]; trivial.
    + now apply frame_loop_events in L as (_ & [(c & cp & _ & [=] & _)|([=] & _)]).
    + apply frame_loop_position in L as (F & _ & Q & _).
      rewrite count_app, count_cons, P. simpl. split; trivial.
  - intros (F & P) L. destruct g' as [| cap1 c1 i1|]; trivial.
    + now apply frame_loop_events in L as (_ & [(c & cp & _ & [=] & _)|([=] & _)]).
    + apply frame_loop_position in L as (F1 & _ & Q & _).
      rewrite count_app, F1, Q, P. split; trivial. lia.
  - intros _ [= <- <- <-]. trivial.
Qed.

Lemma frame_loop_encoded_le_read (fuel : nat) :
  forall (cap : capture frame) (conf iou : float) o g evs,
    frame_loop fuel cap conf iou = Some (o, g, evs) ->
    count is_encoded evs <= count is_read evs.
Proof.
  induction fuel as [|fuel IH]; intros cap conf iou o g evs; simpl; [discriminate|].
  destruct (iteration cap conf iou) as [[x cap1] evs0] eqn:E.
  pose proof (iteration_reads _ _ _ E) as (_ & R).
  apply iteration_encoded in E as (C & _).
  destruct x as [| |chunk|e].
  - intros [= <- <- <-]. rewrite !count_app, C, R. cbn. lia.
  - destruct (frame_loop fuel cap1 conf iou) as [[[o1 g1] evs1]|] eqn:L; [|discriminate].
    intros [= <- <- <-]. apply IH in L. rewrite !count_app, C, R. lia.
  - intros [= <- <- <-]. lia.
  - intros [= <- <- <-]. rewrite !count_app, C, R. cbn. lia.
Qed.

Lemma run_actions_encoded_le_read (fuel : nat) (acts : list action) :
  forall (g g' : gen_state frame) tr outs,
    run_actions fuel acts g = Some (g', tr, outs) ->
    count is_encoded tr <= count is_read tr.
Proof.
  induction acts as [|a acts IH]; intros g g' tr outs; simpl.
  - intros [= <- <- <-]. cbn. lia.
  - destruct a.
    + destruct (gen_next fuel g) as [[[o g1] evs]|] eqn:N; [|discriminate].
      destruct (run_actions fuel acts g1) as [[[g2 evs'] outs']|] eqn:R; [|discriminate].
      intros [= <- <- <-]. apply IH in R. rewrite !count_app.
      assert (count is_encoded evs <= count is_read evs); [|lia].
      clear R. destruct g as [src conf iou|cap conf iou|]; simpl in N.
      * destruct (negb (cap_opened (VideoCapture src))).
        -- injection N as <- <- <-. cbn. lia.
        -- destruct (frame_loop fuel (VideoCapture src) conf iou)
             as [[[o1 g3] evs1]|] eqn:L; [|discriminate].
           injection N as <- <- <-. apply frame_loop_encoded_le_read in L.
           rewrite !count_cons. simpl. lia.
      * eapply frame_loop_encoded_le_read; eassumption.
      * injection N as <- <- <-. cbn. lia.
    + destruct (gen_close g) as [g1 evs] eqn:C.
      destruct (run_actions fuel acts g1) as [[[g2 evs'] outs']|] eqn:R; [|discriminate].
      intros [= <- <- <-]. apply IH in R. rewrite !count_app.
      assert (count is_encoded evs = 0 /\ count is_read evs = 0) as (-> & ->); [|lia].
      destruct g; simpl in C; injection C as <- <-; split; reflexivity.
Qed.

(** X4. The generator consumes its capture strictly in order: whenever it is
    suspended at the [yield], the capture it holds is the one it opened,
    advanced by exactly as many positions as reads were made, so no frame
    is skipped unread or read twice; and no more parts have been emitted
    than frames were read. *)
Theorem capture_advances_one_frame_per_read :
  forall (fuel : nat) (acts : list action) (src : source) (conf iou : float)
         (g : gen_state frame) (tr : trace) (outs : list next_outcome),
    run_actions fuel acts (GenCreated src conf iou) = Some (g, tr, outs) ->
    List.length (chunks_of outs) <= count is_read tr
    /\ forall cap conf' iou',
         g = GenSuspended cap conf' iou' ->
         cap_feed cap = cap_feed (VideoCapture src)
         /\ cap_pos cap = cap_pos (VideoCapture src) + count is_read tr.
Proof.
  pipeline_only. intros fuel acts src conf iou g tr outs R. split.
  - erewrite run_actions_encoded by eassumption.
    eapply run_actions_encoded_le_read; eassumption.
  - assert (G : forall acts g0 pre g1 tr1 outs1,
               match g0 with
               | GenCreated s _ _ => s = src /\ count is_read pre = 0
               | GenSuspended cap _ _ =>
                   cap_feed cap = cap_feed (VideoCapture src)
                   /\ cap_pos cap = cap_pos (VideoCapture src) + count is_read pre
               | GenFinished => True
               end ->
               run_actions fuel acts g0 = Some (g1, tr1, outs1) ->
               forall cap c i, g1 = GenSuspended cap c i ->
                 cap_feed cap = cap_feed (VideoCapture src)
                 /\ cap_pos cap
                    = cap_pos (VideoCapture src) + count is_read (pre ++ tr1)).
    { clear. induction acts as [|a acts IH]; intros g0 pre g1 tr1 outs1 I; simpl.
      - intros [= <- <- <-] cap c i ->. now rewrite app_nil_r.
      - destruct a.
        + destruct (gen_next fuel g0) as [[[o g2] evs]|] eqn:N; [|discriminate].
          destruct (run_actions fuel acts g2) as [[[g3 evs'] outs']|] eqn:R;
            [|discriminate].
          intros [= <- <- <-] cap c i ->. rewrite app_assoc.
          eapply (IH g2 (pre ++ evs)); [|exact R|reflexivity].
          pose proof (gen_next_position _ _ src pre I N) as P.
          destruct g2; trivial. contradiction.
        + destruct (gen_close g0) as [g2 evs] eqn:C.
          assert (g2 = GenFinished) as -> by (destruct g0; simpl in C; congruence).
          destruct (run_actions fuel acts GenFinished) as [[[g3 evs'] outs']|] eqn:R;
            [|discriminate].
          intros [= <- <- <-] cap c i ->.
          now apply run_actions_finished in R as ([=] & _). }
    intros cap c i ->.
    apply (G acts (GenCreated src conf iou) [] _ _ _ (conj eq_refl eq_refl) R _ _ _ eq_refl).
Qed.





(** ** Further properties of the endpoints *)

Lemma gen_next_created_opens (fuel : nat) (src : source) (conf iou : float) o g' evs :
  gen_next fuel (GenCreated src conf iou) = Some (o, g', evs) ->
  exists ok, hd_error evs = Some (EvOpen src ok).
Proof.
  simpl. destruct (negb (cap_opened (VideoCapture src))).
  - intros [= <- <- <-]. now exists false.
  - destruct (frame_loop fuel (VideoCapture src) conf iou) as [[[o1 g1] evs1]|];
      [|discriminate].
    intros [= <- <- <-]. now exists true.
Qed.

(** X5. [video_feed] streams from the camera the [cam] parameter names,
    camera 0 when the parameter is absent: that device is what the first
    resumption of the generator opens. A [cam] that [int] rejects makes the
    request fail with [ValueError], after the thresholds were accepted. *)
Theorem video_feed_opens_requested_camera :
  forall req : request,
    (forall g mimetype,
        video_feed req = Ok (StreamResponse g mimetype) ->
        exists cam conf iou,
          g = GenCreated (Device cam) conf iou
          /\ match multidict_get "cam" (args req) with
             | None => cam = 0%Z
             | Some s => int_of_string s = Some cam
             end
          /\ forall fuel o g' evs,
               gen_next fuel g = Some (o, g', evs) ->
               exists ok, hd_error evs = Some (EvOpen (Device cam) ok))
    /\ (forall conf iou s,
          threshold "conf" (args req) default_conf conf ->
          threshold "iou" (args req) default_iou iou ->
          multidict_get "cam" (args req) = Some s ->
          int_of_string s = None ->
          video_feed req = Raise (ValueError s)).
Proof.
  clear secure_filename isfile now model_predict_file boxes CLASS_NAMES.
  intros req. split.
  - intros g mimetype. unfold video_feed.
    destruct (py_float (get_or "conf" (args req) default_conf)) as [conf|e];
      [|discriminate].
    destruct (py_float (get_or "iou" (args req) default_iou)) as [iou|e];
      [|discriminate].
    simpl. unfold py_int, get_or.
    destruct (multidict_get "cam" (args req)) as [s|].
    + destruct (int_of_string s) as [cam|] eqn:I; [|discriminate].
      simpl. intros [= <- <-]. exists cam, conf, iou.
      repeat split; trivial. intros fuel o g' evs. apply gen_next_created_opens.
    + simpl. intros [= <- <-]. exists 0%Z, conf, iou.
      repeat split; trivial. intros fuel o g' evs. apply gen_next_created_opens.
  - intros conf iou s C I Hs Hi.
    apply py_float_ok in C. apply py_float_ok in I.
    unfold video_feed. rewrite C, I. simpl. unfold py_int, get_or.
    now rewrite Hs, Hi.
Qed.

(** X6. The webcam page and the feed it embeds read [conf] and [iou] the
    same way: whenever the feed streams, the page renders [webcam.html] with
    the very thresholds the generator was given, and whenever the page
    fails, the feed fails with the same exception. *)
Theorem webcam_page_agrees_with_video_feed :
  forall req : request,
    (forall g mimetype,
        video_feed req = Ok (StreamResponse g mimetype) ->
        exists cam conf iou,
          g = GenCreated (Device cam) conf iou
          /\ webcam_page req = Ok ("webcam.html", conf, iou))
    /\ (forall e, webcam_page req = Raise e -> video_feed req = Raise e)
    /\ (forall template conf iou,
          webcam_page req = Ok (template, conf, iou) ->
          template = "webcam.html"
          /\ threshold "conf" (args req) default_conf conf
          /\ threshold "iou" (args req) default_iou iou).
Proof.
  clear VideoCapture model_predict plot imencode secure_filename isfile now
        model_predict_file boxes CLASS_NAMES.
  intros req. unfold video_feed, webcam_page.
  destruct (py_float (get_or "conf" (args req) default_conf)) as [conf|e] eqn:C;
    simpl.
  - destruct (py_float (get_or "iou" (args req) default_iou)) as [iou|e] eqn:I;
      simpl.
    + split; [|split].
      * destruct (py_int (get_or "cam" (args req) 0%Z)) as [cam|e]; simpl;
          [|discriminate].
        intros g m [= <- <-]. now exists cam, conf, iou.
      * discriminate.
      * intros t c i [= <- <- <-].
        apply py_float_ok in C. apply py_float_ok in I. auto.
    + split; [discriminate|]. split; [now intros e0 [= ->]|discriminate].
  - split; [discriminate|]. split; [now intros e0 [= ->]|discriminate].
Qed.

(** X7. [stream_video] hands out a stream in exactly one situation: both
    thresholds are accepted, [video_file] is present and not empty, and the
    path it resolves to is an existing file; the generator then plays that
    path with those thresholds. In particular no stream is ever made for a
    path that is not an existing file. *)
Theorem stream_video_streams_only_existing_files :
  forall (req : request) (g : gen_state frame) (mimetype : string),
    stream_video req = Ok (StreamResponse g mimetype)
    <-> exists conf iou video_file,
          threshold "conf" (args req) default_conf conf
          /\ threshold "iou" (args req) default_iou iou
          /\ multidict_get "video_file" (args req) = Some video_file
          /\ video_file <> EmptyString
          /\ isfile (resolve_video_path video_file) = true
          /\ g = GenCreated (FilePath (resolve_video_path video_file)) conf iou
          /\ mimetype = MJPEG_MIMETYPE.
Proof.
  clear VideoCapture model_predict plot imencode int_of_string now
        model_predict_file boxes CLASS_NAMES.
  intros req g mimetype. split.
  - unfold stream_video.
    destruct (py_float (get_or "conf" (args req) default_conf)) as [conf|e] eqn:C;
      [|discriminate].
    destruct (py_float (get_or "iou" (args req) default_iou)) as [iou|e] eqn:I;
      [|discriminate].
    simpl.
    destruct (multidict_get "video_file" (args req)) as [[|a v]|]; try discriminate.
    destruct (isfile (resolve_video_path (String a v))) eqn:F; simpl; [|discriminate].
    intros [= <- <-]. exists conf, iou, (String a v).
    apply py_float_ok in C. apply py_float_ok in I.
    repeat split; trivial. discriminate.
  - intros (conf & iou & v & C & I & Hv & Hne & F & -> & ->).
    apply py_float_ok in C. apply py_float_ok in I.
    unfold stream_video. rewrite C, I, Hv. simpl.
    destruct v as [|a v]; [contradiction|]. now rewrite F.
Qed.

(** *** Extensions and stored names *)

Lemma string_app_assoc (a b c : string) :
  ((a ++ b) ++ c)%string = (a ++ b ++ c)%string.
Proof. induction a as [|x a IH]; simpl; congruence. Qed.

Lemma take_app (a b : string) : take (String.length a) (a ++ b) = a.
Proof. induction a as [|x a IH]; simpl; [now destruct b|congruence]. Qed.

Lemma contains_drop (c : ascii) (d : nat) :
  forall s, contains c s = false -> contains c (drop d s) = false.
Proof.
  induction d as [|d IH]; intros [|a s]; simpl; trivial.
  intros [_ H]%orb_false_iff. now apply IH.
Qed.

Lemma rfind_drop (c : ascii) (s : string) :
  forall i,
    rfind c s = Some i ->
    drop i s = String c (drop (S i) s)
    /\ contains c (drop (S i) s) = false.
Proof.
  induction s as [|a s IH]; simpl; [discriminate|]. intros i.
  destruct (rfind c s) as [j|] eqn:E.
  - intros [= <-]. simpl. destruct (IH j eq_refl) as (D & C).
    split; [exact D|exact C].
  - destruct (Ascii.eqb_spec a c) as [->|]; [|discriminate].
    intros [= <-]. simpl. split; [now destruct s|].
    apply contains_rfind in E. now destruct s.
Qed.

Lemma rfind_after (c : ascii) (s : string) :
  forall i d,
    rfind c s = Some i -> i < d -> contains c (drop d s) = false.
Proof.
  induction s as [|a s IH]; simpl; [discriminate|]. intros i d.
  destruct (rfind c s) as [j|] eqn:E.
  - intros [= <-] L. destruct d as [|d]; [lia|]. simpl. apply (IH j); [trivial|lia].
  - destruct (Ascii.eqb a c); [|discriminate].
    intros [= <-] L. destruct d as [|d]; [lia|]. simpl.
    apply contains_drop. now apply contains_rfind.
Qed.

(** What [splitext] returns as the extension: nothing, or one dot followed
    by characters that are neither dots nor slashes. *)
Lemma splitext_extension (p : string) :
  snd (splitext p) = EmptyString
  \/ exists t,
       snd (splitext p) = String dot t
       /\ contains dot t = false
       /\ contains slash t = false.
Proof.
  unfold splitext.
  destruct (rfind dot p) as [d|] eqn:D; [|now left].
  destruct (Nat.leb _ d && negb _) eqn:G; [|now left].
  right. apply andb_true_iff in G as (L & _). apply Nat.leb_le in L.
  destruct (rfind_drop _ _ D) as (Hd & Hc).
  exists (drop (S d) p). cbn [snd]. split; [exact Hd|]. split; [exact Hc|].
  destruct (rfind slash p) as [i|] eqn:Sl.
  - apply (rfind_after _ _ Sl). lia.
  - apply contains_drop. now apply contains_rfind.
Qed.

Lemma rfind_head (c : ascii) (t : string) :
  contains c t = false -> rfind c (String c t) = Some 0.
Proof.
  intros H. apply contains_rfind in H. simpl. rewrite H.
  now rewrite Ascii.eqb_refl.
Qed.

Lemma all_dots_app (a b : string) :
  all_dots (a ++ b) = all_dots a && all_dots b.
Proof. induction a as [|x a IH]; simpl; trivial. now rewrite IH, andb_assoc. Qed.

(** A name put together from a stem and an extension splits back into
    them. *)
Lemma splitext_joined (stem t : string) :
  contains slash stem = false ->
  contains slash t = false ->
  contains dot t = false ->
  all_dots stem = false ->
  splitext (stem ++ String dot t) = (stem, String dot t).
Proof.
  intros Hs Ht Hd Ha. unfold splitext.
  assert (rfind slash (stem ++ String dot t) = None) as ->.
  { apply contains_rfind. rewrite contains_app, Hs. simpl. exact Ht. }
  rewrite rfind_app, (rfind_head _ _ Hd), Nat.add_0_r, Nat.sub_0_r.
  cbn [drop Nat.leb andb]. rewrite take_app, drop_app, Ha. reflexivity.
Qed.

Lemma unique_name_splitext (prefix orig_filename : string) (w : world) :
  contains slash prefix = false ->
  contains slash (now (clock w)) = false ->
  splitext (fst (unique_name prefix orig_filename w))
  = ((prefix ++ "_" ++ now (clock w))%string,
     if (snd (splitext orig_filename) =? EmptyString)%string
     then ".jpg" else snd (splitext orig_filename)).
Proof.
  intros Hp Hn. unfold unique_name. cbn [fst].
  assert (Hstem : forall t,
             contains slash t = false -> contains dot t = false ->
             splitext (prefix ++ "_" ++ now (clock w) ++ String dot t)
             = ((prefix ++ "_" ++ now (clock w))%string, String dot t)).
  { intros t Ht Hd.
    rewrite <- (string_app_assoc "_" (now (clock w)) (String dot t)).
    rewrite <- (string_app_assoc prefix ("_" ++ now (clock w)) (String dot t)).
    apply splitext_joined; trivial.
    - rewrite !contains_app, Hp, Hn. reflexivity.
    - rewrite all_dots_app. simpl. apply andb_false_r. }
  destruct (splitext_extension orig_filename) as [->|(t & -> & Hd & Ht)].
  - simpl String.eqb. cbv iota. apply (Hstem "jpg"); reflexivity.
  - simpl String.eqb. cbv iota. now apply Hstem.
Qed.

(** X8. The name [unique_name] makes splits back into its stem
    [prefix_timestamp] and its extension, and the extension is the one of
    the original filename, or [.jpg] when that has none; the clock is read
    once. (The prefix and the timestamp hold no slash.) *)
Theorem unique_name_keeps_extension :
  forall (prefix orig_filename : string) (w : world),
    contains slash prefix = false ->
    contains slash (now (clock w)) = false ->
    splitext (fst (unique_name prefix orig_filename w))
    = ((prefix ++ "_" ++ now (clock w))%string,
       if (snd (splitext orig_filename) =? EmptyString)%string
       then ".jpg" else snd (splitext orig_filename))
    /\ snd (splitext (fst (unique_name prefix orig_filename w))) <> EmptyString
    /\ clock (snd (unique_name prefix orig_filename w)) = S (clock w)
    /\ log (snd (unique_name prefix orig_filename w)) = log w.
Proof.
  clear VideoCapture model_predict plot imencode float_of_string int_of_string
        secure_filename isfile model_predict_file boxes CLASS_NAMES.
  intros prefix orig w Hp Hn.
  rewrite (unique_name_splitext _ orig _ Hp Hn).
  repeat split; trivial. cbn [snd].
  destruct (String.eqb_spec (snd (splitext orig)) EmptyString); [discriminate|trivial].
Qed.

(** X9. A stored upload is classified like the upload it came from: the
    name it is saved under has a video extension exactly when the sanitized
    filename has one, so the stored input of a video record is itself a
    video file by name, and that of an image is not. *)
Theorem stored_name_is_classified_like_upload :
  forall (prefix orig_filename : string) (w : world),
    contains slash prefix = false ->
    contains slash (now (clock w)) = false ->
    classify_video (fst (unique_name prefix orig_filename w))
    = classify_video orig_filename.
Proof.
  clear VideoCapture model_predict plot imencode float_of_string int_of_string
        secure_filename isfile model_predict_file boxes CLASS_NAMES.
  intros prefix orig w Hp Hn. unfold classify_video.
  rewrite (unique_name_splitext _ orig _ Hp Hn). cbn [snd].
  destruct (String.eqb_spec (snd (splitext orig)) EmptyString) as [->|]; reflexivity.
Qed.

Lemma lower_ascii_special (a : ascii) :
  Ascii.eqb (lower_ascii a) dot = Ascii.eqb a dot
  /\ Ascii.eqb (lower_ascii a) slash = Ascii.eqb a slash
  /\ lower_ascii (lower_ascii a) = lower_ascii a.
Proof. destruct a as [[|] [|] [|] [|] [|] [|] [|] [|]]; repeat split. Qed.

Lemma rfind_lower (c : ascii) (s : string) :
  (forall a, Ascii.eqb (lower_ascii a) c = Ascii.eqb a c) ->
  rfind c (lower s) = rfind c s.
Proof.
  intros H. induction s as [|a s IH]; simpl; trivial. now rewrite IH, H.
Qed.

Lemma lower_drop (d : nat) : forall s, drop d (lower s) = lower (drop d s).
Proof. induction d as [|d IH]; intros [|a s]; simpl; trivial. Qed.

Lemma lower_take (d : nat) : forall s, take d (lower s) = lower (take d s).
Proof. induction d as [|d IH]; intros [|a s]; simpl; trivial. now rewrite IH. Qed.

Lemma all_dots_lower (s : string) : all_dots (lower s) = all_dots s.
Proof.
  induction s as [|a s IH]; simpl; trivial.
  now rewrite IH, (proj1 (lower_ascii_special a)).
Qed.

Lemma lower_lower (s : string) : lower (lower s) = lower s.
Proof.
  induction s as [|a s IH]; simpl; trivial.
  now rewrite IH, (proj2 (proj2 (lower_ascii_special a))).
Qed.

(** X10. Classification ignores letter case: a filename and its lowercase
    form are classified alike, because lowercasing moves neither the last
    dot nor the last slash and the extension is compared in lower case. *)
Theorem classification_ignores_case :
  forall name : string,
    classify_video (lower name) = classify_video name
    /\ snd (splitext (lower name)) = lower (snd (splitext name)).
Proof.
  clear.
  intros name.
  assert (E : snd (splitext (lower name)) = lower (snd (splitext name))).
  { unfold splitext.
    rewrite !rfind_lower by (intros a; apply lower_ascii_special).
    destruct (rfind dot name) as [d|]; trivial.
    rewrite lower_drop, lower_take, all_dots_lower.
    destruct (Nat.leb _ d && negb _); trivial. simpl. apply lower_drop. }
  split; trivial. unfold classify_video. now rewrite E, lower_lower.
Qed.

(** *** The batch loop as a whole *)

Lemma has_key_getlist {V : Type} (key : string) (d : list (string * V)) :
  has_key key d = match getlist key d with [] => false | _ => true end.
Proof.
  unfold has_key, getlist. induction d as [|[k v] d IH]; simpl; trivial.
  destruct (k =? key)%string; simpl; trivial.
Qed.

Lemma predict_loop_named (fs : list file_storage) (conf iou : float) :
  forall (acc : list result_record) (w : world),
    predict_loop fs conf iou acc w = predict_loop (named fs) conf iou acc w.
Proof.
  induction fs as [|file fs IH]; intros acc w; simpl; trivial.
  destruct (String.eqb_spec (filename file) EmptyString) as [E|N]; simpl.
  - unfold predict_file at 1. rewrite E. simpl. apply IH.
  - destruct (predict_file file conf iou w) as [[[rec|]|e] w1]; trivial.
Qed.

(** X11. Uploads with an empty filename have no effect on a batch: a
    request and the same request with those uploads removed get the same
    response and leave the same world, as long as a named upload
    remains. *)
Theorem unnamed_uploads_have_no_effect :
  forall (req req' : request) (w : world),
    form req' = form req ->
    getlist "file" (files req') = named (getlist "file" (files req)) ->
    named (getlist "file" (files req)) <> [] ->
    predict req' w = predict req w.
Proof.
  clear VideoCapture model_predict imencode int_of_string isfile.
  intros req req' w Hform Hfiles Hne. unfold predict.
  rewrite !has_key_getlist, Hfiles, Hform.
  assert (A : forall fs, named fs <> [] ->
              forallb (fun f => (filename f =? EmptyString)%string) fs = false).
  { clear. induction fs as [|f fs IH]; simpl; [congruence|].
    destruct (filename f =? EmptyString)%string; simpl; auto. }
  assert (B : named (named (getlist "file" (files req)))
              = named (getlist "file" (files req))).
  { unfold named. generalize (getlist "file" (files req)). clear.
    induction l as [|f l IH]; simpl; trivial.
    destruct (filename f =? EmptyString)%string eqn:E; simpl; trivial.
    now rewrite E, IH. }
  rewrite (A _ Hne), (A (named (getlist "file" (files req)))) by now rewrite B.
  destruct (getlist "file" (files req)) as [|f0 fs0] eqn:G; [now simpl in Hne|].
  destruct (named (f0 :: fs0)) as [|f1 fs1] eqn:Nm; [congruence|].
  simpl negb. simpl orb. cbv iota.
  destruct (py_float (get_or "conf" (form req) default_conf)) as [conf|e]; trivial.
  destruct (py_float (get_or "iou" (form req) default_iou)) as [iou|e]; trivial.
  rewrite (predict_loop_named (f0 :: fs0)), Nm. reflexivity.
Qed.

Lemma py_float_raise (key : string) (d : list (string * string)) (default : float) e :
  py_float (get_or key d default) = Raise e ->
  malformed key d /\ exists s, e = ValueError s.
Proof.
  unfold py_float, get_or, malformed.
  destruct (multidict_get key d) as [s|]; [|discriminate].
  destruct (float_of_string s) eqn:F; [discriminate|].
  intros [= <-]. split; eauto.
Qed.

Lemma predict_file_effects (file : file_storage) (conf iou : float) (w w' : world)
    (out : result (option result_record)) :
  predict_file file conf iou w = (out, w') ->
  exists evs,
    log w' = log w ++ evs
    /\ match out with
       | Ok None => evs = []
       | Ok (Some rec) =>
           exists p,
             reference rec = Some ("/" ++ replace_char backslash slash p)%string
             /\ In p (written evs)
       | Raise e =>
           exists in_path,
             evs = [EvSave in_path (stream file); EvDetect in_path conf iou]
             /\ classify_video (secure_filename (filename file)) = false
       end.
Proof.
  unfold predict_file, unique_name.
  destruct (filename file =? EmptyString)%string.
  - intros [= <- <-]. exists []. now rewrite app_nil_r.
  - cbv beta iota zeta.
    destruct (classify_video (secure_filename (filename file))) eqn:C;
      cbn [negb].
    + intros [= <- <-].
      match goal with
      | |- context [EvSave ?q _] =>
          exists [EvSave q (stream file)]; split; [reflexivity|];
          exists q; split; [reflexivity|now left]
      end.
    + match goal with
      | |- context [EvSave ?q _] => set (in_path := q)
      end.
      case_detector.
      * intros [= <- <-].
        exists [EvSave in_path (stream file); EvDetect in_path conf iou].
        split; [cbn [log emit tick]; now rewrite <- app_assoc|].
        exists in_path. split; reflexivity.
      * destruct (plot r) as [plotted|e] eqn:P.
        -- case_image_save.
           ++ intros [= <- <-].
              match goal with
              | |- context [EvSaveOutput ?o] =>
                  exists [EvSave in_path (stream file); EvDetect in_path conf iou;
                          EvSaveOutput o];
                  split; [cbn [log emit tick]; now rewrite <- !app_assoc|];
                  exists o; split; [reflexivity|right; now left]
              end.
           ++ intros [= <- <-].
              exists [EvSave in_path (stream file); EvDetect in_path conf iou].
              split; [cbn [log emit tick]; now rewrite <- app_assoc|].
              exists in_path. split; reflexivity.
        -- intros [= <- <-].
           exists [EvSave in_path (stream file); EvDetect in_path conf iou].
           split; [cbn [log emit tick]; now rewrite <- app_assoc|].
           exists in_path. split; reflexivity.
      * intros [= <- <-].
        exists [EvSave in_path (stream file); EvDetect in_path conf iou].
        split; [cbn [log emit tick]; now rewrite <- app_assoc|].
        exists in_path. split; reflexivity.
Qed.

Lemma written_app (a b : list batch_event) :
  written (a ++ b) = written a ++ written b.
Proof. unfold written. apply flat_map_app. Qed.

Lemma predict_loop_effects (conf iou : float) (fs : list file_storage) :
  forall (acc : list result_record) (w w' : world)
         (out : result (list result_record)),
    predict_loop fs conf iou acc w = (out, w') ->
    exists evs,
      log w' = log w ++ evs
      /\ match out with
         | Ok recs =>
             exists new,
               recs = acc ++ new
               /\ Forall (fun rec =>
                            exists p,
                              reference rec
                              = Some ("/" ++ replace_char backslash slash p)%string
                              /\ In p (written evs)) new
         | Raise e =>
             exists pre file in_path,
               In file fs
               /\ evs = pre ++ [EvSave in_path (stream file);
                                EvDetect in_path conf iou]
               /\ classify_video (secure_filename (filename file)) = false
         end.
Proof.
  induction fs as [|file fs IH]; intros acc w w' out; simpl.
  - intros [= <- <-]. exists []. rewrite app_nil_r. split; trivial.
    exists []. now rewrite app_nil_r.
  - destruct (predict_file file conf iou w) as [o1 w1] eqn:F.
    apply predict_file_effects in F as (evs1 & L1 & H1).
    destruct o1 as [[rec|]|e].
    + intros L. apply IH in L as (evs2 & L2 & H2).
      exists (evs1 ++ evs2). rewrite L2, L1, <- app_assoc. split; trivial.
      destruct out as [recs|e].
      * destruct H2 as (new & -> & Fa). exists (rec :: new).
        rewrite <- app_assoc. split; trivial. constructor.
        -- destruct H1 as (p & R & I). exists p. split; trivial.
           rewrite written_app. apply in_or_app. now left.
        -- eapply Forall_impl; [|exact Fa]. intros r (p & R & I).
           exists p. split; trivial. rewrite written_app. apply in_or_app. now right.
      * destruct H2 as (pre & f & ip & I & -> & C).
        exists (evs1 ++ pre), f, ip. rewrite <- app_assoc. auto.
    + subst evs1. rewrite app_nil_r in L1. intros L.
      apply IH in L as (evs2 & L2 & H2).
      exists evs2. rewrite L2, L1. split; trivial.
      destruct out as [recs|e]; trivial.
      destruct H2 as (pre & f & ip & I & -> & C).
      exists pre, f, ip. auto.
    + intros [= <- <-]. exists evs1. split; trivial.
      destruct H1 as (ip & -> & C). exists [], file, ip. auto.
Qed.

(** The loop over a list of uploads in two parts: the second part runs from
    where the first one stopped, unless the first one raised. *)
Lemma predict_loop_app (conf iou : float) (fs1 fs2 : list file_storage) :
  forall (acc : list result_record) (w : world),
    predict_loop (fs1 ++ fs2) conf iou acc w
    = match predict_loop fs1 conf iou acc w with
      | (Raise e, w') => (Raise e, w')
      | (Ok recs, w') => predict_loop fs2 conf iou recs w'
      end.
Proof.
  induction fs1 as [|f fs1 IH]; intros acc w; simpl.
  - destruct (predict_loop fs2 conf iou acc w) as [[recs|e] w']; reflexivity.
  - destruct (predict_file f conf iou w) as [[[rec|]|e] w1]; trivial.
Qed.

(** One pass of the loop on an upload whose detection, annotation or output
    cannot be done. *)
Lemma predict_file_failure (file : file_storage) (conf iou : float) (w : world)
    (e : exn) :
  filename file <> EmptyString ->
  let name := secure_filename (filename file) in
  let in_path := path_join UPLOAD_FOLDER (fst (unique_name "in" name w)) in
  let out_path :=
    path_join OUTPUT_FOLDER (fst (unique_name "out" name (tick w))) in
  classify_video name = false ->
  upload_failure in_path out_path (stream file) conf iou e ->
  exists w',
    predict_file file conf iou w = (Raise e, w')
    /\ log w' = log w ++ [EvSave in_path (stream file); EvDetect in_path conf iou].
Proof.
  intros Hname name in_path out_path Hc Hf.
  apply String.eqb_neq in Hname.
  unfold predict_file. rewrite Hname. simpl. subst name. rewrite Hc. simpl.
  match goal with
  | |- context [model_predict_file ?p ?c conf iou] =>
      change (model_predict_file p c conf iou)
        with (model_predict_file in_path (stream file) conf iou)
  end.
  destruct Hf as [Hf|[[Hf ->]|[(r & rs & Hf & Hp)|(r & rs & plotted & Hf & Hp & Hs)]]];
    rewrite Hf; try rewrite Hp; simpl.
  - eexists. split; [reflexivity|]. simpl. now rewrite <- app_assoc.
  - eexists. split; [reflexivity|]. simpl. now rewrite <- app_assoc.
  - eexists. split; [reflexivity|]. simpl. now rewrite <- app_assoc.
  - match goal with
    | |- context [image_save plotted ?p] =>
        change (image_save plotted p) with (image_save plotted out_path)
    end.
    rewrite Hs. eexists. split; [reflexivity|]. simpl. now rewrite <- app_assoc.
Qed.

(** X12. One upload that cannot be processed fails the whole batch. When the
    uploads before it went through, and the detection, the annotation or the
    saving of the annotated output of an upload that is not a video raises,
    the request raises that exception: the answer is a 500 without a result
    page, also for the uploads that had succeeded. The stored input of the
    failing upload and its detection are the last things the request did:
    nothing is done for the uploads after it, no annotated output is
    recorded for it, and what was written for the uploads before it
    stays. *)
Theorem failed_upload_aborts_batch :
  forall (req : request) (fs1 fs2 : list file_storage) (file : file_storage)
         (conf iou : float) (w w1 : world) (recs1 : list result_record)
         (e : exn),
    getlist "file" (files req) = fs1 ++ file :: fs2 ->
    threshold "conf" (form req) default_conf conf ->
    threshold "iou" (form req) default_iou iou ->
    predict_loop fs1 conf iou [] w = (Ok recs1, w1) ->
    filename file <> EmptyString ->
    let name := secure_filename (filename file) in
    let in_path := path_join UPLOAD_FOLDER (fst (unique_name "in" name w1)) in
    let out_path :=
      path_join OUTPUT_FOLDER (fst (unique_name "out" name (tick w1))) in
    classify_video name = false ->
    upload_failure in_path out_path (stream file) conf iou e ->
    exists (w' : world) (evs1 : list batch_event),
      predict req w = (Raise e, w')
      /\ http_status (fst (predict req w)) = 500%Z
      /\ log w1 = log w ++ evs1
      /\ log w' = log w ++ evs1 ++ [EvSave in_path (stream file);
                                    EvDetect in_path conf iou].
Proof.
  clear VideoCapture model_predict imencode int_of_string isfile.
  intros req fs1 fs2 file conf iou w w1 recs1 e G C I L N name in_path out_path
    Cv F.
  destruct (@predict_file_failure file conf iou w1 e N Cv F) as (w' & P & Lg).
  apply predict_loop_effects in L as Eff. destruct Eff as (evs1 & L1 & _).
  exists w', evs1.
  assert (R : predict req w = (Raise e, w')).
  { unfold predict. rewrite has_key_getlist, G.
    destruct (fs1 ++ file :: fs2) as [|f0 fs0] eqn:E;
      [now destruct fs1|]. rewrite <- E. simpl negb. cbv iota.
    assert (A : forallb (fun f => (filename f =? EmptyString)%string)
                  (fs1 ++ file :: fs2) = false).
    { rewrite forallb_app. simpl.
      rewrite (proj2 (String.eqb_neq _ _) N). simpl. apply andb_false_r. }
    rewrite A, E. simpl orb. cbv iota. rewrite <- E.
    apply py_float_ok in C. apply py_float_ok in I. rewrite C, I.
    rewrite predict_loop_app, L. simpl. now rewrite P. }
  split; [exact R|]. split; [now rewrite R|]. split; [exact L1|].
  now rewrite Lg, L1, <- app_assoc.
Qed.

(** X13. Every reference a completed batch hands to the result page names a
    file this request wrote: the stored upload for a video record, the
    annotated output for an image record. The request only ever adds to
    what was written before. *)
Theorem batch_references_name_written_files :
  forall (req : request) (w w' : world) (template : string)
         (recs : list result_record),
    predict req w = (Ok (TemplateResponse template recs), w') ->
    exists evs,
      log w' = log w ++ evs
      /\ Forall (fun rec =>
                   exists p,
                     reference rec
                     = Some ("/" ++ replace_char backslash slash p)%string
                     /\ In p (written evs)) recs.
Proof.
  clear VideoCapture model_predict imencode int_of_string isfile.
  intros req w w' template recs. unfold predict.
  destruct (negb (has_key "file" (files req))); [discriminate|].
  destruct (_ || _); [discriminate|].
  destruct (py_float (get_or "conf" (form req) default_conf)) as [conf|e1];
    [|discriminate].
  destruct (py_float (get_or "iou" (form req) default_iou)) as [iou|e1];
    [|discriminate].
  destruct (predict_loop _ conf iou [] w) as [[rs|e1] w1] eqn:L; [|discriminate].
  intros [= _ <- <-].
  apply predict_loop_effects in L as (evs & Lg & new & -> & Fa).
  exists evs. auto.
Qed.

(** *** Detections *)

Lemma str_of_int_parses (i : Z) :
  NilZero.int_of_string (str_of_int i) = Some (Z.to_int i).
Proof.
  unfold str_of_int. apply NilZero.isi; destruct i; simpl; try discriminate;
    intros [= H]; now apply DecimalPos.Unsigned.to_uint_nonnil in H.
Qed.

(** X14. The detections of an image mirror the rows of its boxes: one
    detection per row, in the same order, with the row's class id,
    confidence and corners; the class name is the model's name for the
    class, and for a class the model has no name for it is the decimal
    numeral of the class id, which reads back as that id. Without boxes
    there are no detections. *)
Theorem detections_mirror_boxes :
  forall r : yolo_result,
    (boxes r = None -> detections_of r = [])
    /\ (forall rows,
          boxes r = Some rows ->
          map (fun d => (class_id d, confidence d, (x1 d, y1 d, x2 d, y2 d)))
            (detections_of r)
          = map (fun b => (box_cls b, box_conf b, box_xyxy b)) rows
          /\ Forall (fun d =>
                       match CLASS_NAMES (class_id d) with
                       | Some name => class_name d = name
                       | None =>
                           option_map Z.of_int
                             (NilZero.int_of_string (class_name d))
                           = Some (class_id d)
                       end) (detections_of r)).
Proof.
  clear VideoCapture model_predict plot imencode float_of_string int_of_string
        secure_filename isfile now model_predict_file.
  intros r. unfold detections_of. split; [now intros ->|].
  intros rows ->. split.
  - rewrite map_map. apply map_ext. intros b. unfold make_detection.
    destruct (box_xyxy b) as [[[a c] d] e]. reflexivity.
  - apply Forall_map. apply Forall_forall. intros b _. unfold make_detection.
    destruct (box_xyxy b) as [[[a c] d] e]. simpl.
    destruct (CLASS_NAMES (box_cls b)); trivial.
    rewrite str_of_int_parses. simpl. now rewrite DecimalZ.of_to.
Qed.

End App.

Arguments TextResponse {frame} body status.
Arguments TemplateResponse {frame} template results.

(** ** The statements at work in the concrete world *)

Local Abbreviation demo_serve :=
  (serve Demo.VideoCapture Demo.model_predict Demo.plot Demo.imencode).
Local Abbreviation demo_video_feed :=
  (@video_feed nat Demo.float_of_string Demo.int_of_string).
Local Abbreviation demo_stream_video :=
  (@stream_video nat Demo.float_of_string Demo.secure_filename Demo.isfile).
Local Abbreviation demo_predict_file :=
  (predict_file Demo.plot Demo.secure_filename Demo.now Demo.model_predict_file
     Demo.boxes Demo.CLASS_NAMES Demo.image_save).
Local Abbreviation demo_predict :=
  (@predict nat nat nat Demo.plot Demo.float_of_string Demo.secure_filename Demo.now
     Demo.model_predict_file Demo.boxes Demo.CLASS_NAMES Demo.image_save).
Local Abbreviation fresh_world := {| clock := 0; log := [] |}.
Local Abbreviation query q := {| args := q; form := []; files := [] |}.
Local Abbreviation upload fs := {| args := []; form := []; files := fs |}.
Local Abbreviation jpeg_of := (fun f : nat => String (ascii_of_nat f) EmptyString).

Local Abbreviation demo_run :=
  (run_actions Demo.VideoCapture Demo.model_predict Demo.plot Demo.imencode).
Local Abbreviation demo_clip :=
  (@GenCreated nat (FilePath Demo.clip_path) default_conf default_iou).

(** *** The model on small inputs *)

Example basename_examples :
  basename "/static/uploads/in_1.mp4" = "in_1.mp4"
  /\ basename "../../etc/passwd" = "passwd"
  /\ basename "clip.mp4" = "clip.mp4"
  /\ basename "uploads/" = EmptyString.
Proof. repeat split. Qed.

Example splitext_examples :
  splitext "cat.JPG" = ("cat", ".JPG")
  /\ splitext "archive.tar.gz" = ("archive.tar", ".gz")
  /\ splitext ".bashrc" = (".bashrc", EmptyString)
  /\ splitext "a.b/c" = ("a.b/c", EmptyString)
  /\ splitext "noext" = ("noext", EmptyString).
Proof. repeat split. Qed.

Example path_join_examples :
  path_join "static/uploads" "a.mp4" = "static/uploads/a.mp4"
  /\ path_join "static/uploads" EmptyString = "static/uploads/"
  /\ path_join "static/uploads" "/etc/passwd" = "/etc/passwd".
Proof. repeat split. Qed.

Example secure_filename_examples :
  Demo.secure_filename "My Holiday.MP4" = "My_Holiday.MP4"
  /\ Demo.secure_filename "../../etc/passwd" = "etc_passwd"
  /\ Demo.secure_filename ".mp4" = "mp4"
  /\ Demo.secure_filename "..." = EmptyString.
Proof. repeat split. Qed.

(** The default thresholds are what [float] makes of [0.25] and [0.45]. *)
Example default_thresholds :
  Demo.float_of_string "0.25" = Some default_conf
  /\ Demo.float_of_string "0.45" = Some default_iou.
Proof. split; vm_compute; reflexivity. Qed.

(** The three ways out of the loop, each with one open and one release:
    the stored clip played to its end; camera 1, whose second frame cannot
    be annotated; the live camera 0, which never runs dry, closed by the
    consumer after two frames. *)
Example three_ways_out :
  (exists tr outs,
     demo_run 5 [Next; Next; Next] demo_clip = Some (GenFinished, tr, outs)
     /\ last outs (Raised IndexError) = StopIteration
     /\ count is_open tr = 1 /\ count is_release tr = 1)
  /\ (exists tr outs,
        demo_run 5 [Next; Next] (@GenCreated nat (Device 1) default_conf default_iou)
        = Some (GenFinished, tr, outs)
        /\ last outs StopIteration = Raised (LibraryError "plot")
        /\ count is_open tr = 1 /\ count is_release tr = 1)
  /\ (exists tr outs,
        demo_run 5 [Next; Next; Close]
          (@GenCreated nat (Device 0) default_conf default_iou)
        = Some (GenFinished, tr, outs)
        /\ List.length (chunks_of outs) = 2
        /\ count is_open tr = 1 /\ count is_release tr = 1).
Proof.
  repeat split; eexists _, _; (split; [vm_compute; reflexivity|]);
    repeat split; reflexivity.
Qed.

(** The client that leaves after three of the ten frames: three parts were
    written, the capture was read three times and released once. *)
Example disconnect_after_three_frames :
  exists tr,
    demo_serve 1 3
      (@GenCreated nat (FilePath "static/uploads/ten.mp4") default_conf default_iou)
    = Some (map (fun f => frame_chunk (jpeg_of f)) [10; 11; 12],
            Disconnected, GenFinished, tr)
    /\ count is_read tr = 3 /\ count is_release tr = 1.
Proof. eexists. split; [vm_compute; reflexivity|]. split; reflexivity. Qed.

(** *** The lifecycle of the capture *)

(** The stored clip, pulled once and then closed by the consumer: the first
    frame was emitted and the capture released once. *)
Lemma release_exactly_once_witness :
  exists g tr outs,
    demo_run 5 [Next; Close] demo_clip = Some (g, tr, outs)
    /\ g = GenFinished /\ count is_release tr = 1.
Proof.
  eexists _, _, _. split; [vm_compute; reflexivity|].
  refine (proj1 (@release_exactly_once nat nat nat Demo.VideoCapture
                   Demo.model_predict Demo.plot Demo.imencode 5 [Next; Close]
                   (FilePath Demo.clip_path) default_conf default_iou
                   _ _ _ eq_refl _) _ _).
  - vm_compute; reflexivity.
  - left. simpl. auto.
  - reflexivity.
Defined.

(** A path that is not on disk does not open. *)
Lemma open_failure_raises_before_streaming_witness :
  exists outs,
    demo_run 0 [Next; Next; Close]
      (@GenCreated nat (FilePath "static/uploads/missing.mp4") default_conf default_iou)
    = Some (GenFinished, [EvOpen (FilePath "static/uploads/missing.mp4") false],
            Raised (RuntimeError "Could not open video: static/uploads/missing.mp4")
            :: outs)
    /\ chunks_of outs = [].
Proof.
  destruct (@open_failure_raises_before_streaming nat nat nat Demo.VideoCapture
              Demo.model_predict Demo.plot Demo.imencode 0 [Next; Close]
              (FilePath "static/uploads/missing.mp4") default_conf default_iou
              eq_refl) as (outs & H & Hc & _).
  exists outs. split; [exact H|exact Hc].
Defined.

(** *** Thresholds *)

(** [/video_feed?conf=abc]: [float('abc')] raises, and the answer is a
    server error, not the client error 400; the same for [/predict] with a
    file and [conf=abc] in the form. *)
Lemma malformed_conf_is_a_server_error :
  Demo.float_of_string "abc" = None
  /\ demo_video_feed (query [("conf", "abc")]) = Raise (ValueError "abc")
  /\ http_status (demo_video_feed (query [("conf", "abc")])) <> 400%Z
  /\ fst (demo_predict
            {| args := []; form := [("conf", "abc")];
               files := [("file", {| filename := "cat.jpg"; stream := "pixels" |})] |}
            fresh_world)
     = Raise (ValueError "abc")
  /\ http_status
       (fst (demo_predict
               {| args := []; form := [("conf", "abc")];
                  files := [("file", {| filename := "cat.jpg"; stream := "pixels" |})] |}
               fresh_world)) <> 400%Z.
Proof. repeat split; try reflexivity; vm_compute; discriminate. Qed.

(** One request with [conf=1e] in the query string and [conf=abc] in the
    form, carrying one upload: as a [/video_feed] request and as a
    [/predict] request it fails with [ValueError], and [/predict] has
    written nothing. *)
Lemma malformed_threshold_fails_request_witness :
  (exists s,
     demo_video_feed
       {| args := [("iou", "0.5"); ("conf", "1e")]; form := [("conf", "abc")];
          files := [("file", {| filename := "cat.jpg"; stream := "pixels" |})] |}
     = Raise (ValueError s))
  /\ (exists s,
        demo_predict
          {| args := [("iou", "0.5"); ("conf", "1e")]; form := [("conf", "abc")];
             files := [("file", {| filename := "cat.jpg"; stream := "pixels" |})] |}
          fresh_world
        = (Raise (ValueError s), fresh_world)).
Proof.
  destruct (@malformed_threshold_fails_request nat nat nat Demo.plot
              Demo.float_of_string Demo.int_of_string Demo.secure_filename
              Demo.isfile Demo.now Demo.model_predict_file Demo.boxes
              Demo.CLASS_NAMES Demo.image_save
              {| args := [("iou", "0.5"); ("conf", "1e")]; form := [("conf", "abc")];
                 files := [("file", {| filename := "cat.jpg"; stream := "pixels" |})] |})
    as (_ & _ & _ & Hq & Hf).
  split.
  - destruct Hq as [(s & E & _) _].
    + left. exists "1e". split; reflexivity.
    + exists s. exact E.
  - destruct (Hf (or_introl (ex_intro _ "abc" (conj eq_refl eq_refl))) fresh_world)
      as (_ & _ & H).
    destruct (H eq_refl eq_refl) as (s & E & _).
    exists s. exact E.
Defined.

(** *** The frame loop *)



(** The ten-frame file of the scenario: ten parts, then a normal end. *)
Lemma stored_video_yields_every_frame_witness :
  exists tr,
    demo_serve 1 11
      (@GenCreated nat (FilePath "static/uploads/ten.mp4") default_conf default_iou)
    = Some (map (fun f => frame_chunk (jpeg_of f))
              [10; 11; 12; 14; 15; 16; 17; 18; 19; 20],
            Exhausted, GenFinished, tr)
    /\ count is_release tr = 1.
Proof.
  destruct (@stored_video_yields_every_frame nat nat nat Demo.VideoCapture
              Demo.model_predict Demo.plot Demo.imencode
              (FilePath "static/uploads/ten.mp4")
              [10; 11; 12; 14; 15; 16; 17; 18; 19; 20]
              default_conf default_iou jpeg_of 1 11)
    as (tr & H & _ & _ & R & _).
  - reflexivity.
  - intros f Hin. exists f, [], f. simpl in Hin.
    repeat (destruct Hin as [<-|Hin]; [repeat split; reflexivity|]).
    contradiction.
  - lia.
  - simpl. lia.
  - exists tr. split; [exact H|exact R].
Defined.

(** *** Streaming endpoints *)

Lemma streamed_body_is_mjpeg_witness :
  exists g chunks fin g' tr,
    demo_stream_video (query [("video_file", "clip.mp4")])
    = Ok (StreamResponse g "multipart/x-mixed-replace; boundary=frame")
    /\ demo_serve 5 1 g = Some (chunks, fin, g', tr)
    /\ Forall (fun chunk => prefix ("--frame" ++ CRLF) chunk = true
                             /\ prefix end_marker chunk = false) chunks.
Proof.
  eexists _, _, _, _, _.
  split; [vm_compute; reflexivity|]. split; [vm_compute; reflexivity|].
  refine (proj2 (proj2
            (@streamed_body_is_mjpeg nat nat nat Demo.VideoCapture
               Demo.model_predict Demo.plot Demo.imencode Demo.float_of_string
               Demo.int_of_string Demo.secure_filename Demo.isfile
               (query [("video_file", "clip.mp4")]) _ _ _ 5 1 _ _ _ _ _))).
  - right. vm_compute. reflexivity.
  - vm_compute. reflexivity.
Defined.

(** [/stream_video?conf=abc] without [video_file]: the thresholds are
    parsed first, so the answer is the server error, not 400. *)
Lemma missing_video_file_with_malformed_conf :
  multidict_get "video_file" (args (query [("conf", "abc")])) = None
  /\ demo_stream_video (query [("conf", "abc")]) = Raise (ValueError "abc")
  /\ http_status (demo_stream_video (query [("conf", "abc")])) <> 400%Z.
Proof. repeat split; try reflexivity. vm_compute. discriminate. Qed.

Lemma stream_video_client_errors_witness :
  demo_stream_video (query [("video_file", "nowhere.mp4"); ("conf", "0.5")])
  = Ok (TextResponse "Video not found: static/uploads/nowhere.mp4" 404).
Proof.
  refine (proj1 (proj2
            (@stream_video_client_errors nat nat nat Demo.VideoCapture
               Demo.model_predict Demo.plot Demo.imencode Demo.float_of_string
               Demo.secure_filename Demo.isfile
               (query [("video_file", "nowhere.mp4"); ("conf", "0.5")])
               0.5%float default_iou _ _)) "nowhere.mp4" eq_refl _ eq_refl).
  - reflexivity.
  - reflexivity.
  - discriminate.
Defined.

(** Directory components and an attempt to climb out of the folder change
    nothing: the stored clip is what is opened. *)
Lemma stream_video_opens_sanitized_basename_witness :
  exists g conf iou,
    demo_stream_video (query [("video_file", "../../etc/clip.mp4")])
    = Ok (StreamResponse g MJPEG_MIMETYPE)
    /\ g = GenCreated (FilePath "static/uploads/clip.mp4") conf iou
    /\ directly_in UPLOAD_FOLDER "static/uploads/clip.mp4".
Proof.
  destruct (@stream_video_opens_sanitized_basename nat nat nat Demo.VideoCapture
              Demo.model_predict Demo.plot Demo.imencode Demo.float_of_string
              Demo.secure_filename Demo.isfile
              (query [("video_file", "../../etc/clip.mp4")])
              (GenCreated (FilePath "static/uploads/clip.mp4") default_conf default_iou)
              MJPEG_MIMETYPE eq_refl)
    as (v & conf & iou & Hv & Hg & _ & _ & _ & Hdir).
  exists (GenCreated (FilePath "static/uploads/clip.mp4") default_conf default_iou),
    conf, iou.
  injection Hv as <-.
  split; [reflexivity|]. split; [exact Hg|]. exact (Hdir eq_refl).
Defined.

(** *** The batch endpoint *)



Lemma predict_rejects_missing_files_witness :
  exists body,
    demo_predict
      (upload [("file", {| filename := EmptyString; stream := EmptyString |});
               ("file", {| filename := EmptyString; stream := EmptyString |})])
      fresh_world
    = (Ok (TextResponse body 400), fresh_world).
Proof.
  destruct (@predict_rejects_missing_files nat nat nat Demo.plot
              Demo.float_of_string Demo.secure_filename Demo.now
              Demo.model_predict_file Demo.boxes Demo.CLASS_NAMES Demo.image_save
              (upload [("file", {| filename := EmptyString; stream := EmptyString |});
                       ("file", {| filename := EmptyString; stream := EmptyString |})])
              fresh_world (or_intror eq_refl)) as (body & H & _).
  exists body. exact H.
Defined.

(** *** Further properties at work *)

Local Abbreviation demo_frame_loop :=
  (frame_loop Demo.model_predict Demo.plot Demo.imencode).
Local Abbreviation demo_play := (play Demo.model_predict Demo.plot Demo.imencode).
Local Abbreviation cat_jpg := {| filename := "cat.jpg"; stream := "pixels" |}.

(** Three stored frames, the first two of which fail to encode. *)
Lemma frame_loop_returns_on_finite_source_witness :
  exists o g evs,
    demo_frame_loop 4 (file_capture [7; 7; 3]) default_conf default_iou
    = Some (o, g, evs)
    /\ count is_read evs <= 4.
Proof.
  apply (frame_loop_returns_on_finite_source Demo.model_predict Demo.plot
           Demo.imencode (n := 3) (file_capture [7; 7; 3]) default_conf default_iou).
  - reflexivity.
  - lia.
Defined.

(** The stored clip 1, 7, 3: two parts, frame 7 left out, a normal end. *)
Lemma stored_video_body_witness :
  exists tr,
    demo_serve 4 4 demo_clip
    = Some ([frame_chunk (jpeg_of 1); frame_chunk (jpeg_of 3)], Exhausted,
            GenFinished, tr)
    /\ count is_release tr = 1.
Proof.
  destruct (stored_video_body Demo.VideoCapture Demo.model_predict Demo.plot
              Demo.imencode (FilePath Demo.clip_path) (frames := [1; 7; 3])
              default_conf default_iou (fuel := 4) (pulls := 4))
    as (tr & H & _ & _ & R).
  - reflexivity.
  - simpl. lia.
  - simpl. lia.
  - exists tr. split; [exact H|exact R].
Defined.


(** After two parts of the clip the capture stands behind its third frame. *)
Lemma capture_advances_one_frame_per_read_witness :
  exists cap tr outs,
    demo_run 5 [Next; Next] demo_clip
    = Some (GenSuspended cap default_conf default_iou, tr, outs)
    /\ cap_pos cap = 0 + count is_read tr
    /\ count is_read tr = 3.
Proof.
  eexists _, _, _. split; [vm_compute; reflexivity|].
  split; [|reflexivity].
  refine (proj2 (proj2 (capture_advances_one_frame_per_read Demo.VideoCapture
                          Demo.model_predict Demo.plot Demo.imencode 5 [Next; Next]
                          (FilePath Demo.clip_path) default_conf default_iou _)
                   _ _ _ eq_refl)).
  vm_compute. reflexivity.
Defined.


Lemma video_feed_opens_requested_camera_witness :
  exists cam conf iou,
    demo_video_feed (query [("cam", "1")])
    = Ok (StreamResponse (GenCreated (Device cam) conf iou) MJPEG_MIMETYPE)
    /\ Demo.int_of_string "1" = Some cam.
Proof.
  destruct (proj1 (video_feed_opens_requested_camera Demo.VideoCapture
                     Demo.model_predict Demo.plot Demo.imencode
                     Demo.float_of_string Demo.int_of_string
                     (query [("cam", "1")]))
              (GenCreated (Device 1) default_conf default_iou) MJPEG_MIMETYPE
              eq_refl) as (cam & conf & iou & G & C & _).
  exists cam, conf, iou. split; [now rewrite <- G|exact C].
Defined.

Lemma webcam_page_agrees_with_video_feed_witness :
  exists cam conf iou,
    demo_video_feed (query [("conf", "0.5")])
    = Ok (StreamResponse (GenCreated (Device cam) conf iou) MJPEG_MIMETYPE)
    /\ webcam_page Demo.float_of_string (query [("conf", "0.5")])
       = Ok ("webcam.html", conf, iou).
Proof.
  destruct (proj1 (webcam_page_agrees_with_video_feed nat Demo.float_of_string
                     Demo.int_of_string (query [("conf", "0.5")]))
              (GenCreated (Device 0) 0.5%float default_iou) MJPEG_MIMETYPE
              eq_refl) as (cam & conf & iou & G & W).
  exists cam, conf, iou. split; [now rewrite <- G|exact W].
Defined.

Lemma stream_video_streams_only_existing_files_witness :
  exists video_file,
    multidict_get "video_file" (args (query [("video_file", "a/b/clip.mp4")]))
    = Some video_file
    /\ Demo.isfile (resolve_video_path Demo.secure_filename video_file) = true.
Proof.
  destruct (proj1 (stream_video_streams_only_existing_files Demo.float_of_string
                     Demo.secure_filename Demo.isfile
                     (query [("video_file", "a/b/clip.mp4")])
                     (@GenCreated nat (FilePath Demo.clip_path) default_conf
                        default_iou)
                     MJPEG_MIMETYPE) eq_refl)
    as (conf & iou & v & _ & _ & Hv & _ & F & _).
  exists v. split; [exact Hv|exact F].
Defined.

Lemma unique_name_keeps_extension_witness :
  splitext (fst (unique_name Demo.now "in" "cat.PNG" fresh_world))
  = ("in_20240101_120000_000000", ".PNG").
Proof.
  exact (proj1 (unique_name_keeps_extension Demo.now "in" "cat.PNG" fresh_world
                  eq_refl eq_refl)).
Defined.

Lemma stored_name_is_classified_like_upload_witness :
  classify_video (fst (unique_name Demo.now "in" "Holiday.MP4" fresh_world))
  = classify_video "Holiday.MP4".
Proof.
  exact (stored_name_is_classified_like_upload Demo.now "in" "Holiday.MP4"
           fresh_world eq_refl eq_refl).
Defined.

Lemma unnamed_uploads_have_no_effect_witness :
  demo_predict (upload [("file", cat_jpg)]) fresh_world
  = demo_predict
      (upload [("file", {| filename := EmptyString; stream := "x" |});
               ("file", cat_jpg)])
      fresh_world.
Proof.
  apply (unnamed_uploads_have_no_effect nat Demo.plot Demo.float_of_string
           Demo.secure_filename Demo.now Demo.model_predict_file Demo.boxes
           Demo.CLASS_NAMES Demo.image_save).
  - reflexivity.
  - reflexivity.
  - discriminate.
Defined.

(** A good image, then a raw photo whose annotated output cannot be
    written, then another good image: the request fails, the third upload
    is never saved, and the files of the first one stay. *)
Lemma failed_upload_aborts_batch_witness :
  exists w',
    demo_predict
      (upload [("file", cat_jpg);
               ("file", {| filename := "raw.dng"; stream := "sensor" |});
               ("file", {| filename := "dog.png"; stream := "pixels" |})])
      fresh_world
    = (Raise (ValueError "unknown file extension: .dng"), w')
    /\ log w'
       = [EvSave "static/uploads/in_20240101_120000_000000.jpg" "pixels";
          EvDetect "static/uploads/in_20240101_120000_000000.jpg"
            default_conf default_iou;
          EvSaveOutput "static/outputs/out_20240101_120000_000001.jpg";
          EvSave "static/uploads/in_20240101_120000_000002.dng" "sensor";
          EvDetect "static/uploads/in_20240101_120000_000002.dng"
            default_conf default_iou].
Proof.
  destruct (@failed_upload_aborts_batch nat nat nat Demo.plot Demo.float_of_string
              Demo.secure_filename Demo.now Demo.model_predict_file Demo.boxes
              Demo.CLASS_NAMES Demo.image_save
              (upload [("file", cat_jpg);
                       ("file", {| filename := "raw.dng"; stream := "sensor" |});
                       ("file", {| filename := "dog.png"; stream := "pixels" |})])
              [cat_jpg] [{| filename := "dog.png"; stream := "pixels" |}]
              {| filename := "raw.dng"; stream := "sensor" |}
              default_conf default_iou fresh_world
              (snd (demo_predict_file cat_jpg default_conf default_iou fresh_world))
              [{| upload_name := "cat.jpg";
                  image_path := Some "/static/outputs/out_20240101_120000_000001.jpg";
                  video_path := None;
                  rec_conf := default_conf;
                  rec_iou := default_iou;
                  detections := detections_of Demo.boxes Demo.CLASS_NAMES 6;
                  is_video := false |}]
              (ValueError "unknown file extension: .dng"))
    as (w' & evs1 & H & _ & L1 & L).
  - reflexivity.
  - reflexivity.
  - reflexivity.
  - vm_compute. reflexivity.
  - discriminate.
  - reflexivity.
  - right. right. right. exists 6, [], 6.
    split; [reflexivity|]. split; [reflexivity|]. vm_compute. reflexivity.
  - exists w'. split; [exact H|].
    assert (E : evs1
                = [EvSave "static/uploads/in_20240101_120000_000000.jpg" "pixels";
                   EvDetect "static/uploads/in_20240101_120000_000000.jpg"
                     default_conf default_iou;
                   EvSaveOutput "static/outputs/out_20240101_120000_000001.jpg"])
      by (symmetry; exact L1).
    rewrite E in L. exact L.
Defined.

Lemma batch_references_name_written_files_witness :
  exists recs w',
    demo_predict
      (upload [("file", cat_jpg);
               ("file", {| filename := "clip.mp4"; stream := "footage" |})])
      fresh_world
    = (Ok (TemplateResponse "result.html" recs), w')
    /\ Forall (fun rec =>
                 exists p,
                   reference rec = Some ("/" ++ replace_char backslash slash p)%string
                   /\ In p (written (log w'))) recs.
Proof.
  eexists _, _. split; [vm_compute; reflexivity|].
  destruct (batch_references_name_written_files Demo.plot Demo.float_of_string
              Demo.secure_filename Demo.now Demo.model_predict_file Demo.boxes
              Demo.CLASS_NAMES Demo.image_save
              (upload [("file", cat_jpg);
                       ("file", {| filename := "clip.mp4"; stream := "footage" |})])
              fresh_world (frame := nat) ltac:(vm_compute; reflexivity))
    as (evs & L & F).
  simpl in L. subst evs. exact F.
Defined.

Lemma detections_mirror_boxes_witness :
  map (fun d => (class_id d, class_name d))
    (detections_of Demo.boxes Demo.CLASS_NAMES 5)
  = [(0%Z, "person")]
  /\ Forall (fun d =>
               match Demo.CLASS_NAMES (class_id d) with
               | Some name => class_name d = name
               | None =>
                   option_map Z.of_int (NilZero.int_of_string (class_name d))
                   = Some (class_id d)
               end) (detections_of Demo.boxes Demo.CLASS_NAMES 5).
Proof.
  split; [reflexivity|].
  exact (proj2 (proj2 (detections_mirror_boxes Demo.boxes Demo.CLASS_NAMES 5)
                  _ eq_refl)).
Defined.
